(** * The SIL verifier (lib/SIL/Verifier.cpp)

    A shallow embedding of [SILVerifier], the visitor that walks a SIL
    function and asserts the typing and block-shape invariants of every
    instruction, together with the properties its specification states.

    The verifier is written with [assert] and [llvm_unreachable].  The
    embedding is of a build in which assertions are compiled in (no
    [NDEBUG]): a failed [assert] stops the walk with the message of the
    assertion, [llvm_unreachable] stops it with its own message, and a
    member access through a null pointer stops it as well.  The [DEBUG]
    trace output is a side channel and is not part of the embedding. *)

From stdpp Require Import base decidable option list strings.

Local Open Scope string_scope.

Set Warnings "-register-all".

(** ** The type facts the verifier queries *)

Module Types.

(** Modelled from the spec: swift/AST/Types.h is not among the sources.
    The canonical AST types, restricted to the closed set of shapes the
    verifier tests for (function, polymorphic function, tuple, builtin
    integer, metatype, archetype) and the leaves that carry the facts
    "reference semantics" and "existential". *)
Inductive CanType : Type :=
  | BuiltinIntegerType (bitWidth : nat)
  | BuiltinRawPointerType
  | BuiltinObjectPointerType
  | TupleType (fields : list CanType)
  | FunctionType (input result : CanType)
  | PolymorphicFunctionType (input result : CanType)
  | MetaTypeType (instanceType : CanType)
  | ArchetypeType (name : string)
  | ProtocolType (name : string)
  | ClassType (name : string)
  | StructType (name : string).

(** [Type::isEqual] on canonical types is structural equality. *)
Definition CanType_eq_dec : forall a b : CanType, {a = b} + {a <> b}.
Proof.
  fix IH 1.
  decide equality;
    first [ apply IH
          | apply (List.list_eq_dec IH)
          | apply String.string_dec
          | apply Nat.eq_dec ].
Defined.

#[export] Instance CanType_eq_decision : EqDecision CanType := CanType_eq_dec.

Definition isEqual (a b : CanType) : bool := bool_decide (a = b).

(** [TypeBase::hasReferenceSemantics]: object pointers, classes and
    functions are reference counted. *)
Definition CanType_hasReferenceSemantics (t : CanType) : bool :=
  match t with
  | BuiltinObjectPointerType
  | ClassType _
  | FunctionType _ _
  | PolymorphicFunctionType _ _ => true
  | _ => false
  end.

Definition CanType_isExistentialType (t : CanType) : bool :=
  match t with
  | ProtocolType _ => true
  | _ => false
  end.

(** The shape tests [is<S>] and the projections [getAs<S>]. *)
Definition CanType_is_FunctionType (t : CanType) : bool :=
  match t with FunctionType _ _ => true | _ => false end.

Definition CanType_is_PolymorphicFunctionType (t : CanType) : bool :=
  match t with PolymorphicFunctionType _ _ => true | _ => false end.

Definition CanType_is_AnyFunctionType (t : CanType) : bool :=
  CanType_is_FunctionType t || CanType_is_PolymorphicFunctionType t.

Definition CanType_is_TupleType (t : CanType) : bool :=
  match t with TupleType _ => true | _ => false end.

Definition CanType_is_BuiltinIntegerType (t : CanType) : bool :=
  match t with BuiltinIntegerType _ => true | _ => false end.

Definition CanType_is_MetaTypeType (t : CanType) : bool :=
  match t with MetaTypeType _ => true | _ => false end.

Definition CanType_is_ArchetypeType (t : CanType) : bool :=
  match t with ArchetypeType _ => true | _ => false end.

(** Modelled from the spec: swift/SIL/SILType.h is not among the sources.
    An IR type handle is an AST type with its addressing qualifier and
    its address-only bit; two handles are equal iff they agree on all of
    them.  The shape tests look at the underlying AST type, whether or
    not the handle is an address (the verifier itself asks an address for
    [is<ArchetypeType>]). *)
Record SILType : Type := mkSILType {
  getSwiftType : CanType;
  isAddress : bool;
  isAddressOnly : bool
}.

#[export] Instance SILType_eq_decision : EqDecision SILType.
Proof. solve_decision. Defined.

(** [operator==] on [SILType]. *)
Definition SILType_eqb (a b : SILType) : bool := bool_decide (a = b).

(** The type an address points to: the same type without the address
    qualifier. *)
Definition getObjectType (t : SILType) : SILType :=
  {| getSwiftType := getSwiftType t;
     isAddress := false;
     isAddressOnly := isAddressOnly t |}.

Definition getAddressType (t : SILType) : SILType :=
  {| getSwiftType := getSwiftType t;
     isAddress := true;
     isAddressOnly := isAddressOnly t |}.

Definition hasReferenceSemantics (t : SILType) : bool :=
  CanType_hasReferenceSemantics (getSwiftType t).

Definition isExistentialType (t : SILType) : bool :=
  CanType_isExistentialType (getSwiftType t).

Definition is_FunctionType (t : SILType) : bool :=
  CanType_is_FunctionType (getSwiftType t).

Definition is_PolymorphicFunctionType (t : SILType) : bool :=
  CanType_is_PolymorphicFunctionType (getSwiftType t).

Definition is_AnyFunctionType (t : SILType) : bool :=
  CanType_is_AnyFunctionType (getSwiftType t).

Definition is_TupleType (t : SILType) : bool :=
  CanType_is_TupleType (getSwiftType t).

Definition is_BuiltinIntegerType (t : SILType) : bool :=
  CanType_is_BuiltinIntegerType (getSwiftType t).

Definition is_MetaTypeType (t : SILType) : bool :=
  CanType_is_MetaTypeType (getSwiftType t).

Definition is_ArchetypeType (t : SILType) : bool :=
  CanType_is_ArchetypeType (getSwiftType t).

(** A loadable value type and the address of one. *)
Definition valueOf (t : CanType) : SILType := mkSILType t false false.
Definition addressOf (t : CanType) : SILType := mkSILType t true false.

End Types.

Export Types.

(** ** The types of values *)

Module Handles.



End Handles.

Export Handles.

(** ** The IR the verifier reads *)

Module IR.

(** A reference to the result of an earlier instruction.  The verifier
    reads the type of an operand and nothing else. *)
Record Value : Type := mkValue {
  getDef : nat;
  getType : SILType
}.

(** Modelled from the spec: swift/SIL/Instruction.h is not among the
    sources.  One constructor per instruction class the verifier has a
    rule for, carrying the result type [Ty] and the operands that rule
    reads.  The return value of [ReturnInst] and the condition of
    [CondBranchInst] may be the null value, which the rules test for. *)
Inductive Instruction : Type :=
  | AllocVarInst (Ty : SILType)
  | AllocRefInst (Ty : SILType)
  | ApplyInst (Ty : SILType) (Callee : Value) (Arguments : list Value)
  | ConstantRefInst (Ty : SILType)
  | IntegerLiteralInst (Ty : SILType)
  | LoadInst (Ty : SILType) (LValue : Value)
  | StoreInst (Src Dest : Value)
  | CopyAddrInst (Src Dest : Value)
  | ZeroAddrInst (Dest : Value)
  | ZeroValueInst (Ty : SILType)
  | SpecializeInst (Ty : SILType) (Operand : Value)
  | TupleInst (Ty : SILType) (Elements : list Value)
  | MetatypeInst (Ty : SILType)
  | AssociatedMetatypeInst (Ty : SILType) (SourceMetatype : Value)
  | RetainInst (Operand : Value)
  | ReleaseInst (Operand : Value)
  | DeallocVarInst (Operand : Value)
  | DeallocRefInst (Operand : Value)
  | DestroyAddrInst (Operand : Value)
  | IndexAddrInst (Ty : SILType) (Operand : Value)
  | ExtractInst (Ty : SILType) (Operand : Value)
  | ElementAddrInst (Ty : SILType) (Operand : Value)
  | RefElementAddrInst (Ty : SILType) (Operand : Value)
  | ArchetypeMethodInst (Ty : SILType) (Operand : Value)
  | ProtocolMethodInst (Ty : SILType) (Operand : Value)
  | ProjectExistentialInst (Operand : Value)
  | InitExistentialInst (Existential : Value)
  | DeinitExistentialInst (Existential : Value)
  | ArchetypeToSuperInst (Ty : SILType) (Operand : Value)
  | SuperToArchetypeInst (SrcBase DestArchetypeAddress : Value)
  | DowncastInst (Ty : SILType) (Operand : Value)
  | IntegerValueInst (Ty : SILType)
  | ReturnInst (ReturnValue : option Value)
  | BranchInst (DestBB : nat)
  | CondBranchInst (Condition : option Value) (TrueBB FalseBB : nat).

(** [isa<TermInst>]: the instruction classes derived from [TermInst]. *)
Definition isa_TermInst (I : Instruction) : bool :=
  match I with
  | ReturnInst _ | BranchInst _ | CondBranchInst _ _ _ => true
  | _ => false
  end.

(** A basic block is the list of its instructions, in order. *)
Definition BasicBlock : Type := list Instruction.

(** The signature of a function type: its input types, in order, and its
    result type. *)
Record SILFunctionTypeInfo : Type := mkSILFunctionTypeInfo {
  getInputTypes : list SILType;
  getResultType : SILType
}.

(** Modelled from the spec: [SILModule::getFunctionTypeInfo] is not among
    the sources.  It is a parameter of the module; [None] is the null
    pointer, the answer for a type whose signature is not resolved. *)
Record SILModule : Type := mkSILModule {
  getFunctionTypeInfo : SILType -> option SILFunctionTypeInfo
}.

Record Function : Type := mkFunction {
  getModule : SILModule;
  getLoweredType : SILType;
  getBlocks : list BasicBlock
}.

End IR.

Export IR.

(** ** The verifier *)

Module SILVerifier.

(** How a run of the verifier ends. *)
Inductive Outcome : Type :=
  | Verified
  | AssertionFailed (msg : string)
  | Unreachable (msg : string)
  | NullDereference.

(** [assert(cond && msg)]. *)
Definition assert (cond : bool) (msg : string) : Outcome :=
  if cond then Verified else AssertionFailed msg.

(** Sequencing of two statements: the second runs only if the first one
    returned normally. *)
Definition andThen (s1 s2 : Outcome) : Outcome :=
  match s1 with
  | Verified => s2
  | stop => stop
  end.

Declare Scope verifier_scope.
Delimit Scope verifier_scope with V.
Bind Scope verifier_scope with Outcome.
Notation "s1 ;; s2" := (andThen s1 s2)
  (at level 100, s2 at level 200, right associativity) : verifier_scope.
Local Open Scope verifier_scope.

(** A failed [assert] and [llvm_unreachable] are different ways to stop:
    the first reports a violated invariant, the second and the null
    dereference are crashes of the verifier itself. *)
Definition isInvariantViolation (o : Outcome) : bool :=
  match o with AssertionFailed _ => true | _ => false end.

Definition isFatal (o : Outcome) : bool :=
  match o with Unreachable _ | NullDereference => true | _ => false end.

Definition visitAllocVarInst (Ty : SILType) : Outcome :=
  assert (isAddress Ty) "alloc_var must return address".

Definition visitAllocRefInst (Ty : SILType) : Outcome :=
  assert (hasReferenceSemantics Ty && negb (isAddress Ty))
         "alloc_ref must return reference type value".

(** The loop of [visitApplyInst] over the argument positions
    [i, i+1, ..., size-1]; [n] counts the positions left.  [ArrayRef]
    asserts that an index is in range. *)
Fixpoint visitApplyArguments (Arguments : list Value) (InputTypes : list SILType)
    (i n : nat) : Outcome :=
  match n with
  | 0 => Verified
  | S n' =>
      match Arguments !! i, InputTypes !! i with
      | Some arg, Some input =>
          assert (SILType_eqb (getType arg) input)
                 "input types to apply don't match function input types" ;;
          visitApplyArguments Arguments InputTypes (S i) n'
      | _, _ => AssertionFailed "Invalid index!"
      end
  end.

Definition visitApplyInst (F : Function) (Ty : SILType) (Callee : Value)
    (Arguments : list Value) : Outcome :=
  let calleeTy := getType Callee in
  assert (negb (isAddress calleeTy)) "callee of apply cannot be an address" ;;
  assert (is_FunctionType calleeTy)
         "callee of apply must have concrete function type" ;;
  match getFunctionTypeInfo (getModule F) calleeTy with
  | None => NullDereference
  | Some ti =>
      assert (Nat.eqb (length Arguments) (length (getInputTypes ti)))
             "apply doesn't have right number of arguments for function" ;;
      visitApplyArguments Arguments (getInputTypes ti) 0 (length Arguments) ;;
      assert (SILType_eqb Ty (getResultType ti))
             "type of apply instruction doesn't match function result type"
  end.

Definition visitConstantRefInst (Ty : SILType) : Outcome :=
  assert (is_AnyFunctionType Ty) "constant_ref should have a function result".

Definition visitIntegerLiteralInst (Ty : SILType) : Outcome :=
  assert (is_BuiltinIntegerType Ty) "invalid integer literal type".

Definition visitLoadInst (Ty : SILType) (LValue : Value) : Outcome :=
  assert (negb (isAddress Ty)) "Can't load an address" ;;
  assert (isAddress (getType LValue)) "Load operand must be an address" ;;
  assert (SILType_eqb (getObjectType (getType LValue)) Ty)
         "Load operand type and result type mismatch".

Definition visitStoreInst (Src Dest : Value) : Outcome :=
  assert (negb (isAddress (getType Src))) "Can't store from an address source" ;;
  assert (isAddress (getType Dest)) "Must store to an address dest" ;;
  assert (SILType_eqb (getObjectType (getType Dest)) (getType Src))
         "Store operand type and dest type mismatch".

Definition visitCopyAddrInst (Src Dest : Value) : Outcome :=
  assert (isAddress (getType Src)) "Src value should be lvalue" ;;
  assert (isAddress (getType Dest)) "Dest address should be lvalue" ;;
  assert (SILType_eqb (getType Dest) (getType Src))
         "Store operand type and dest type mismatch".

Definition visitZeroAddrInst (Dest : Value) : Outcome :=
  assert (isAddress (getType Dest)) "Dest address should be lvalue".

Definition visitZeroValueInst (Ty : SILType) : Outcome :=
  assert (negb (isAddress Ty)) "zero_value cannot create an address".

Definition visitSpecializeInst (Ty : SILType) (Operand : Value) : Outcome :=
  assert (is_FunctionType Ty) "Specialize dest should be a function type" ;;
  assert (is_PolymorphicFunctionType (getType Operand))
         "Specialize source should be a polymorphic function type".

(** [castTo<TupleType>] after the shape test: the declared fields of the
    result type. *)
Definition visitTupleInst (Ty : SILType) (Elements : list Value) : Outcome :=
  assert (is_TupleType Ty) "TupleInst should return a tuple" ;;
  match getSwiftType Ty with
  | TupleType fields =>
      assert (Nat.eqb (length Elements) (length fields))
             "Tuple field count mismatch!"
  | _ => AssertionFailed "cast<Ty>() argument of incompatible type!"
  end.

Definition visitMetatypeInst (Ty : SILType) : Outcome :=
  assert (is_MetaTypeType Ty) "metatype instruction must be of metatype type".

Definition visitAssociatedMetatypeInst (Ty : SILType) (SourceMetatype : Value)
    : Outcome :=
  assert (is_MetaTypeType Ty)
         "associated_metatype instruction must be of metatype type" ;;
  assert (is_MetaTypeType (getType SourceMetatype))
         "associated_metatype operand must be of metatype type".

Definition visitRetainInst (Operand : Value) : Outcome :=
  assert (negb (isAddress (getType Operand)))
         "Operand of retain must not be address" ;;
  assert (hasReferenceSemantics (getType Operand))
         "Operand of dealloc_ref must be reference type".

Definition visitReleaseInst (Operand : Value) : Outcome :=
  assert (negb (isAddress (getType Operand)))
         "Operand of release must not be address" ;;
  assert (hasReferenceSemantics (getType Operand))
         "Operand of dealloc_ref must be reference type".

Definition visitDeallocVarInst (Operand : Value) : Outcome :=
  assert (isAddress (getType Operand)) "Operand of dealloc_var must be address".

Definition visitDeallocRefInst (Operand : Value) : Outcome :=
  assert (negb (isAddress (getType Operand)))
         "Operand of dealloc_ref must not be address" ;;
  assert (hasReferenceSemantics (getType Operand))
         "Operand of dealloc_ref must be reference type".

Definition visitDestroyAddrInst (Operand : Value) : Outcome :=
  assert (isAddressOnly (getType Operand))
         "Operand of destroy_addr must be address-only".

Definition visitIndexAddrInst (Ty : SILType) (Operand : Value) : Outcome :=
  assert (isAddress Ty && SILType_eqb Ty (getType Operand))
         "invalid IndexAddrInst".

Definition visitExtractInst (Ty : SILType) (Operand : Value) : Outcome :=
  let operandTy := getType Operand in
  assert (negb (isAddress operandTy)) "cannot extract from address" ;;
  assert (negb (hasReferenceSemantics operandTy))
         "cannot extract from reference type" ;;
  assert (negb (isAddress Ty)) "result of extract cannot be address".

Definition visitElementAddrInst (Ty : SILType) (Operand : Value) : Outcome :=
  let operandTy := getType Operand in
  assert (isAddress operandTy) "must derive element_addr from address" ;;
  assert (negb (hasReferenceSemantics operandTy))
         "cannot derive element_addr from reference type" ;;
  assert (isAddress Ty) "result of element_addr must be lvalue".

Definition visitRefElementAddrInst (Ty : SILType) (Operand : Value) : Outcome :=
  let operandTy := getType Operand in
  assert (negb (isAddress operandTy))
         "must derive ref_element_addr from non-address" ;;
  assert (hasReferenceSemantics operandTy)
         "must derive ref_element_addr from reference type" ;;
  assert (isAddress Ty) "result of ref_element_addr must be lvalue".

(** [getAs<FunctionType>] gives the null pointer unless the result type
    is a concrete function type; the input and the result of the method
    type are read after the null test. *)
Definition visitArchetypeMethodInst (Ty : SILType) (Operand : Value) : Outcome :=
  match getSwiftType Ty with
  | FunctionType input result =>
      let operandType := getType Operand in
      assert (isEqual input (getSwiftType operandType))
             "result must be a method of the operand" ;;
      assert (CanType_is_FunctionType result) "result must be a method" ;;
      if isAddress operandType then
        assert (is_ArchetypeType operandType)
               "archetype_method must apply to an archetype address"
      else
        match getSwiftType operandType with
        | MetaTypeType instanceType =>
            assert (CanType_is_ArchetypeType instanceType)
                   "archetype_method must apply to an archetype metatype"
        | _ => Unreachable "method must apply to an address or metatype"
        end
  | _ => AssertionFailed "result method must be of a concrete function type"
  end.

Definition visitProtocolMethodInst (Ty : SILType) (Operand : Value) : Outcome :=
  match getSwiftType Ty with
  | FunctionType input result =>
      let operandType := getType Operand in
      assert (isEqual input BuiltinRawPointerType)
             "result must be a method of raw pointer" ;;
      assert (CanType_is_FunctionType result) "result must be a method" ;;
      assert (isAddress operandType)
             "protocol_method must apply to an existential address" ;;
      assert (isExistentialType operandType)
             "protocol_method must apply to an existential address"
  | _ => AssertionFailed "result method must be of a concrete function type"
  end.

Definition visitProjectExistentialInst (Operand : Value) : Outcome :=
  let operandType := getType Operand in
  assert (isAddress operandType)
         "project_existential must be applied to address" ;;
  assert (isExistentialType operandType)
         "project_existential must be applied to address of existential".

Definition visitInitExistentialInst (Existential : Value) : Outcome :=
  let exType := getType Existential in
  assert (isAddress exType) "init_existential must be applied to an address" ;;
  assert (isExistentialType exType)
         "init_existential must be applied to address of existential".

Definition visitDeinitExistentialInst (Existential : Value) : Outcome :=
  let exType := getType Existential in
  assert (isAddress exType) "deinit_existential must be applied to an address" ;;
  assert (isExistentialType exType)
         "deinit_existential must be applied to address of existential".

Definition visitArchetypeToSuperInst (Ty : SILType) (Operand : Value) : Outcome :=
  assert (isAddressOnly (getType Operand))
         "archetype_to_super operand must be an address" ;;
  assert (is_ArchetypeType (getType Operand))
         "archetype_to_super operand must be archetype" ;;
  assert (hasReferenceSemantics Ty)
         "archetype_to_super must convert to a reference type".

Definition visitSuperToArchetypeInst (SrcBase DestArchetypeAddress : Value)
    : Outcome :=
  assert (hasReferenceSemantics (getType SrcBase))
         "super_to_archetype source must be a reference type" ;;
  assert (is_ArchetypeType (getType DestArchetypeAddress))
         "super_to_archetype dest must be an archetype address".

Definition visitDowncastInst (Ty : SILType) (Operand : Value) : Outcome :=
  assert (hasReferenceSemantics (getType Operand))
         "downcast operand must be a reference type" ;;
  assert (hasReferenceSemantics Ty)
         "downcast must convert to a reference type".

Definition visitIntegerValueInst (Ty : SILType) : Outcome :=
  assert (is_BuiltinIntegerType Ty) "invalid integer value type".

(** The truth value of a possibly null [Value]. *)
Definition isNonNull (v : option Value) : bool :=
  match v with
  | Some _ => true
  | None => false
  end.

(** The check of the return type against the type of [F] is commented
    out in the source; only the null test is left. *)
Definition visitReturnInst (F : Function) (ReturnValue : option Value)
    : Outcome :=
  assert (isNonNull ReturnValue) "Return of null value is invalid".

Definition visitBranchInst (DestBB : nat) : Outcome := Verified.

Definition visitCondBranchInst (Condition : option Value) : Outcome :=
  assert (isNonNull Condition)
         "Condition of conditional branch can't be missing".

(** [SILVisitor::visit]: the dispatch on the class of the instruction. *)
Definition dispatch (F : Function) (I : Instruction) : Outcome :=
  match I with
  | AllocVarInst Ty => visitAllocVarInst Ty
  | AllocRefInst Ty => visitAllocRefInst Ty
  | ApplyInst Ty Callee Arguments => visitApplyInst F Ty Callee Arguments
  | ConstantRefInst Ty => visitConstantRefInst Ty
  | IntegerLiteralInst Ty => visitIntegerLiteralInst Ty
  | LoadInst Ty LValue => visitLoadInst Ty LValue
  | StoreInst Src Dest => visitStoreInst Src Dest
  | CopyAddrInst Src Dest => visitCopyAddrInst Src Dest
  | ZeroAddrInst Dest => visitZeroAddrInst Dest
  | ZeroValueInst Ty => visitZeroValueInst Ty
  | SpecializeInst Ty Operand => visitSpecializeInst Ty Operand
  | TupleInst Ty Elements => visitTupleInst Ty Elements
  | MetatypeInst Ty => visitMetatypeInst Ty
  | AssociatedMetatypeInst Ty SourceMetatype =>
      visitAssociatedMetatypeInst Ty SourceMetatype
  | RetainInst Operand => visitRetainInst Operand
  | ReleaseInst Operand => visitReleaseInst Operand
  | DeallocVarInst Operand => visitDeallocVarInst Operand
  | DeallocRefInst Operand => visitDeallocRefInst Operand
  | DestroyAddrInst Operand => visitDestroyAddrInst Operand
  | IndexAddrInst Ty Operand => visitIndexAddrInst Ty Operand
  | ExtractInst Ty Operand => visitExtractInst Ty Operand
  | ElementAddrInst Ty Operand => visitElementAddrInst Ty Operand
  | RefElementAddrInst Ty Operand => visitRefElementAddrInst Ty Operand
  | ArchetypeMethodInst Ty Operand => visitArchetypeMethodInst Ty Operand
  | ProtocolMethodInst Ty Operand => visitProtocolMethodInst Ty Operand
  | ProjectExistentialInst Operand => visitProjectExistentialInst Operand
  | InitExistentialInst Existential => visitInitExistentialInst Existential
  | DeinitExistentialInst Existential => visitDeinitExistentialInst Existential
  | ArchetypeToSuperInst Ty Operand => visitArchetypeToSuperInst Ty Operand
  | SuperToArchetypeInst SrcBase Dest => visitSuperToArchetypeInst SrcBase Dest
  | DowncastInst Ty Operand => visitDowncastInst Ty Operand
  | IntegerValueInst Ty => visitIntegerValueInst Ty
  | ReturnInst ReturnValue => visitReturnInst F ReturnValue
  | BranchInst DestBB => visitBranchInst DestBB
  | CondBranchInst Condition _ _ => visitCondBranchInst Condition
  end.

(** An instruction pointer is the position [i] of the instruction in its
    parent block [BB]; [&*BB->getInsts().rbegin() == I] compares it with
    the position of the last instruction. *)
Definition isLastOf (BB : BasicBlock) (i : nat) : bool :=
  Nat.eqb (S i) (length BB).

Definition empty (BB : BasicBlock) : bool :=
  match BB with
  | [] => true
  | _ :: _ => false
  end.

(** The position check of [SILVerifier::visit]. *)
Definition checkPosition (BB : BasicBlock) (i : nat) (I : Instruction)
    : Outcome :=
  if negb (isa_TermInst I) then
    assert (negb (empty BB)) "Can't be in a parent block if it is empty" ;;
    assert (negb (isLastOf BB i)) "Non-terminators cannot be the last in a block"
  else
    assert (isLastOf BB i) "Terminator must be the last in block".

(** [SILVerifier::visit]: the position check, then the dispatch to the
    rule of the instruction. *)
Definition visit (F : Function) (BB : BasicBlock) (i : nat) (I : Instruction)
    : Outcome :=
  checkPosition BB i I ;;
  dispatch F I.

(** Modelled from the spec: [SILVisitor::visitBasicBlock] and
    [SILVisitor::visitFunction] (swift/SIL/SILVisitor.h) are not among
    the sources.  The walker visits the instructions of a block in
    sequence, and the blocks of a function in the order they are stored. *)
Fixpoint visitInstructions (F : Function) (BB : BasicBlock) (i : nat)
    (Insts : list Instruction) : Outcome :=
  match Insts with
  | [] => Verified
  | Inst :: rest => visit F BB i Inst ;; visitInstructions F BB (S i) rest
  end.

Definition visitBasicBlock (F : Function) (BB : BasicBlock) : Outcome :=
  visitInstructions F BB 0 BB.

Fixpoint visitBlocks (F : Function) (Blocks : list BasicBlock) : Outcome :=
  match Blocks with
  | [] => Verified
  | BB :: rest => visitBasicBlock F BB ;; visitBlocks F rest
  end.

Definition visitFunction (F : Function) : Outcome :=
  visitBlocks F (getBlocks F).

(** [SILVerifier::verify] and [Function::verify]. *)
Definition verify (F : Function) : Outcome := visitFunction F.

End SILVerifier.

Export SILVerifier.
Local Open Scope verifier_scope.

(** ** The shapes the archetype_method rule is stated with *)

Module Shapes.

(** The operand shapes the rule accepts: the address of an archetype, or
    a metatype value whose instance type is an archetype. *)
Definition archetypeMethodOperand (t : SILType) : Prop :=
  (isAddress t = true /\ is_ArchetypeType t = true) \/
  (isAddress t = false /\
   exists instanceType,
     getSwiftType t = MetaTypeType instanceType /\
     CanType_is_ArchetypeType instanceType = true).

(** The three tests on the method type that come before the operand is
    looked at. *)
Definition archetypeMethodType (Ty operandType : SILType) : Prop :=
  exists input result,
    getSwiftType Ty = FunctionType input result /\
    input = getSwiftType operandType /\
    CanType_is_FunctionType result = true.

End Shapes.

Export Shapes.

(** ** Instruction classes whose rule can stop the verifier fatally *)

Module Kinds.

(** The two rules that contain something other than assertions: the
    apply rule reads the signature of the callee through a pointer, and
    the archetype_method rule ends in [llvm_unreachable]. *)
Definition mayStopFatally (Inst : Instruction) : bool :=
  match Inst with
  | ApplyInst _ _ _ | ArchetypeMethodInst _ _ => true
  | _ => false
  end.

(** The callee types of the apply instructions of a block. *)
Definition calleeTypes (BB : BasicBlock) : list SILType :=
  omap (fun Inst =>
          match Inst with
          | ApplyInst _ Callee _ => Some (getType Callee)
          | _ => None
          end) BB.

End Kinds.

Export Kinds.

(** ** Sample types, values and functions *)

Module Samples.

Definition IntTy : CanType := StructType "Int".
Definition BoolTy : CanType := StructType "Bool".
Definition UnitTy : CanType := TupleType [].

(** A module that resolves every concrete function type to the signature
    that takes the fields of a tuple input one by one, and nothing else. *)
Definition inputsOf (t : CanType) : list SILType :=
  match t with
  | TupleType fields => valueOf <$> fields
  | _ => [valueOf t]
  end.

Definition sampleModule : SILModule :=
  {| getFunctionTypeInfo := fun t =>
       match getSwiftType t with
       | FunctionType input result =>
           Some {| getInputTypes := inputsOf input;
                   getResultType := valueOf result |}
       | _ => None
       end |}.

(** A module in which no signature is resolved. *)
Definition emptyModule : SILModule :=
  {| getFunctionTypeInfo := fun _ => None |}.

(** A module that resolves the signature of one type and no other. *)
Definition onlyModule (t : SILType) (ti : SILFunctionTypeInfo) : SILModule :=
  {| getFunctionTypeInfo := fun t' =>
       if SILType_eqb t' t then Some ti else None |}.

Definition sampleFunction (M : SILModule) (Blocks : list BasicBlock)
    : Function :=
  {| getModule := M;
     getLoweredType := valueOf (FunctionType UnitTy IntTy);
     getBlocks := Blocks |}.

(** [alloc_var; store; load; return], the entry block of a function that
    stores an [Int] to a fresh slot and returns what it loads back. *)
Definition entryBlock : BasicBlock :=
  [ AllocVarInst (addressOf IntTy);
    StoreInst (mkValue 0 (valueOf IntTy)) (mkValue 1 (addressOf IntTy));
    LoadInst (valueOf IntTy) (mkValue 1 (addressOf IntTy));
    ReturnInst (Some (mkValue 3 (valueOf IntTy))) ].

End Samples.

Import Samples.

Example verify_entryBlock :
  verify (sampleFunction sampleModule [entryBlock]) = Verified.
Proof. reflexivity. Qed.

Example verify_store_to_value :
  verify (sampleFunction sampleModule
            [ <[1 := StoreInst (mkValue 0 (valueOf IntTy))
                               (mkValue 1 (valueOf IntTy))]> entryBlock ])
  = AssertionFailed "Must store to an address dest".
Proof. reflexivity. Qed.

Example apply_swapped_arguments :
  let callee := mkValue 0 (valueOf (FunctionType (TupleType [IntTy; BoolTy]) IntTy)) in
  let i := mkValue 1 (valueOf IntTy) in
  let b := mkValue 2 (valueOf BoolTy) in
  visitApplyInst (sampleFunction sampleModule []) (valueOf IntTy) callee [i; b]
    = Verified /\
  visitApplyInst (sampleFunction sampleModule []) (valueOf IntTy) callee [b; i]
    = AssertionFailed "input types to apply don't match function input types".
Proof. split; reflexivity. Qed.

(** ** Reasoning about outcomes *)

Section Outcomes.

Lemma assert_Verified cond msg : assert cond msg = Verified <-> cond = true.
Proof. destruct cond; cbn; split; congruence. Qed.

Lemma assert_failed cond msg :
  cond = false -> assert cond msg = AssertionFailed msg.
Proof. intros ->. reflexivity. Qed.

Lemma assert_not_fatal cond msg : isFatal (assert cond msg) = false.
Proof. destruct cond; reflexivity. Qed.

Lemma andThen_Verified s1 s2 :
  (s1 ;; s2) = Verified <-> s1 = Verified /\ s2 = Verified.
Proof. destruct s1; cbn; intuition congruence. Qed.

Lemma andThen_assert_true cond msg s :
  cond = true -> (assert cond msg ;; s) = s.
Proof. intros ->. reflexivity. Qed.

Lemma andThen_assert_false cond msg s :
  cond = false -> (assert cond msg ;; s) = AssertionFailed msg.
Proof. intros ->. reflexivity. Qed.

Lemma SILType_eqb_eq a b : SILType_eqb a b = true <-> a = b.
Proof. unfold SILType_eqb. apply bool_decide_eq_true. Qed.

Lemma isEqual_eq a b : isEqual a b = true <-> a = b.
Proof. unfold isEqual. apply bool_decide_eq_true. Qed.

End Outcomes.

(** Turns [_ = Verified] for a sequence of assertions into the list of
    the asserted conditions, in the goal and in the hypotheses. *)
Ltac verified :=
  repeat first
    [ rewrite andThen_Verified
    | rewrite assert_Verified
    | rewrite SILType_eqb_eq
    | rewrite isEqual_eq
    | rewrite negb_true_iff
    | rewrite andb_true_iff
    | rewrite Nat.eqb_eq ].

(** ** The apply rule *)

Section Apply.

(** The loop over the positions [i .. i+n-1] returns normally iff both
    arrays have an element at each of these positions and the type of the
    argument is the input type there. *)
Lemma visitApplyArguments_Verified Arguments InputTypes n : forall i,
  visitApplyArguments Arguments InputTypes i n = Verified <->
  forall k, i <= k < i + n ->
    exists arg, Arguments !! k = Some arg /\
                InputTypes !! k = Some (getType arg).
Proof.
  induction n as [|n IH]; intros i; cbn [visitApplyArguments].
  - split; [intros _ k Hk; lia | reflexivity].
  - destruct (Arguments !! i) as [arg|] eqn:Harg.
    + destruct (InputTypes !! i) as [input|] eqn:Hin.
      * rewrite andThen_Verified, assert_Verified, SILType_eqb_eq, IH.
        split.
        -- intros [Heq Hrest] k Hk.
           destruct (decide (k = i)) as [->|Hne].
           ++ exists arg. rewrite Heq. auto.
           ++ apply Hrest. lia.
        -- intros Hall. split.
           ++ destruct (Hall i) as (arg' & Ha & Hi); [lia|]. congruence.
           ++ intros k Hk. apply Hall. lia.
      * split; [discriminate|].
        intros Hall. destruct (Hall i) as (arg' & _ & Hi); [lia|]. congruence.
    + split; [discriminate|].
      intros Hall. destruct (Hall i) as (arg' & Ha & _); [lia|]. congruence.
Qed.

(** With as many arguments as inputs, the loop accepts iff the types
    agree position by position. *)
Lemma visitApplyArguments_positional (Arguments : list Value)
    (InputTypes : list SILType) :
  length Arguments = length InputTypes ->
  visitApplyArguments Arguments InputTypes 0 (length Arguments) = Verified <->
  forall i arg, Arguments !! i = Some arg ->
                InputTypes !! i = Some (getType arg).
Proof.
  intros Hlen. rewrite visitApplyArguments_Verified. split.
  - intros Hall i arg Hi.
    destruct (Hall i) as (arg' & Ha & Ht).
    + apply lookup_lt_Some in Hi. lia.
    + congruence.
  - intros Hall k Hk.
    destruct (lookup_lt_is_Some_2 Arguments k) as [arg Ha]; [lia|].
    exists arg. eauto.
Qed.

Lemma visitApplyInst_resolved F Ty Callee Arguments ti :
  isAddress (getType Callee) = false ->
  is_FunctionType (getType Callee) = true ->
  getFunctionTypeInfo (getModule F) (getType Callee) = Some ti ->
  visitApplyInst F Ty Callee Arguments = Verified <->
  length Arguments = length (getInputTypes ti) /\
  (forall i arg, Arguments !! i = Some arg ->
                 getInputTypes ti !! i = Some (getType arg)) /\
  Ty = getResultType ti.
Proof.
  intros Haddr Hfn Hti. unfold visitApplyInst.
  rewrite Haddr, Hfn, Hti. cbn [negb assert andThen].
  verified. split.
  - intros (Hlen & Hargs & HTy).
    rewrite visitApplyArguments_positional in Hargs by exact Hlen. auto.
  - intros (Hlen & Hargs & HTy).
    rewrite visitApplyArguments_positional by exact Hlen. auto.
Qed.

(** C1: for an apply whose callee is a non-address value of concrete
    function type with resolved signature [T1..Tn] -> R, the apply rule
    accepts the instruction iff it has exactly n arguments, the type of
    the i-th argument is Ti at every position i, and its result type is
    R; an accepted call is rejected once two arguments of different types
    are swapped. *)
Theorem visitApplyInst_positional F Ty Callee (Arguments : list Value) ti :
  isAddress (getType Callee) = false ->
  is_FunctionType (getType Callee) = true ->
  getFunctionTypeInfo (getModule F) (getType Callee) = Some ti ->
  (visitApplyInst F Ty Callee Arguments = Verified <->
     length Arguments = length (getInputTypes ti) /\
     (forall i arg, Arguments !! i = Some arg ->
                    getInputTypes ti !! i = Some (getType arg)) /\
     Ty = getResultType ti) /\
  (forall i j ai aj,
     Arguments !! i = Some ai -> Arguments !! j = Some aj ->
     getType ai <> getType aj ->
     visitApplyInst F Ty Callee Arguments = Verified ->
     visitApplyInst F Ty Callee (<[i := aj]> (<[j := ai]> Arguments))
       <> Verified).
Proof.
  intros Haddr Hfn Hti. split.
  - apply visitApplyInst_resolved; assumption.
  - intros i j ai aj Hi Hj Hne Hok Hswapped.
    apply (visitApplyInst_resolved F Ty Callee _ ti Haddr Hfn Hti) in Hok.
    apply (visitApplyInst_resolved F Ty Callee _ ti Haddr Hfn Hti) in Hswapped.
    destruct Hok as (_ & Hargs & _).
    destruct Hswapped as (_ & Hargs' & _).
    assert (Hlook : <[i := aj]> (<[j := ai]> Arguments) !! i = Some aj).
    { apply list_lookup_insert_eq. rewrite length_insert.
      eapply lookup_lt_Some; eassumption. }
    apply Hargs' in Hlook. apply Hargs in Hi. congruence.
Qed.

End Apply.

Lemma visitApplyInst_positional_witness :
  let F := sampleFunction sampleModule [] in
  let callee :=
    mkValue 0 (valueOf (FunctionType (TupleType [IntTy; BoolTy]) IntTy)) in
  let args := [mkValue 1 (valueOf IntTy); mkValue 2 (valueOf BoolTy)] in
  let ti := mkSILFunctionTypeInfo [valueOf IntTy; valueOf BoolTy] (valueOf IntTy) in
  (isAddress (getType callee) = false /\
   is_FunctionType (getType callee) = true /\
   getFunctionTypeInfo (getModule F) (getType callee) = Some ti) /\
  (visitApplyInst F (valueOf IntTy) callee args = Verified <->
     length args = length (getInputTypes ti) /\
     (forall i arg, args !! i = Some arg ->
                    getInputTypes ti !! i = Some (getType arg)) /\
     valueOf IntTy = getResultType ti) /\
  (forall i j ai aj,
     args !! i = Some ai -> args !! j = Some aj ->
     getType ai <> getType aj ->
     visitApplyInst F (valueOf IntTy) callee args = Verified ->
     visitApplyInst F (valueOf IntTy) callee (<[i := aj]> (<[j := ai]> args))
       <> Verified).
Proof.
  cbv zeta. split.
  - repeat split; reflexivity.
  - apply (visitApplyInst_positional
             (sampleFunction sampleModule [])
             (valueOf IntTy)
             (mkValue 0 (valueOf (FunctionType (TupleType [IntTy; BoolTy]) IntTy)))
             [mkValue 1 (valueOf IntTy); mkValue 2 (valueOf BoolTy)]
             (mkSILFunctionTypeInfo [valueOf IntTy; valueOf BoolTy] (valueOf IntTy)));
      reflexivity.
Defined.

(** ** The position of terminators *)

Section Terminators.

Lemma lookup_nonempty (BB : BasicBlock) i Inst :
  BB !! i = Some Inst -> empty BB = false.
Proof. destruct BB; [destruct i; discriminate | reflexivity]. Qed.

Lemma isLastOf_true (BB : BasicBlock) i :
  isLastOf BB i = true <-> S i = length BB.
Proof. unfold isLastOf. apply Nat.eqb_eq. Qed.

(** For an instruction of the block, the position check passes iff the
    instruction is a terminator exactly when it is the last one. *)
Lemma checkPosition_Verified (BB : BasicBlock) i Inst :
  BB !! i = Some Inst ->
  checkPosition BB i Inst = Verified <-> isa_TermInst Inst = isLastOf BB i.
Proof.
  intros Hin. unfold checkPosition.
  rewrite (lookup_nonempty BB i Inst Hin).
  destruct (isa_TermInst Inst), (isLastOf BB i); cbn; intuition congruence.
Qed.

Lemma visitInstructions_positions F BB (Insts : list Instruction) : forall i,
  visitInstructions F BB i Insts = Verified ->
  forall k Inst, Insts !! k = Some Inst ->
    checkPosition BB (i + k) Inst = Verified /\ dispatch F Inst = Verified.
Proof.
  induction Insts as [|Inst0 rest IH]; intros i Hok k Inst Hk.
  - destruct k; discriminate.
  - cbn [visitInstructions] in Hok. unfold visit in Hok.
    rewrite !andThen_Verified in Hok. destruct Hok as ((Hpos & Hrule) & Hrest).
    destruct k as [|k]; cbn in Hk.
    + injection Hk as <-. rewrite Nat.add_0_r. auto.
    + replace (i + S k) with (S i + k) by lia. eapply IH; eassumption.
Qed.

(** A block that passes has a terminator exactly at its last position. *)
Lemma visitBasicBlock_terminators F (BB : BasicBlock) :
  visitBasicBlock F BB = Verified ->
  forall i Inst, BB !! i = Some Inst -> isa_TermInst Inst = isLastOf BB i.
Proof.
  intros Hok i Inst Hi.
  destruct (visitInstructions_positions F BB BB 0 Hok i Inst Hi) as [Hpos _].
  cbn in Hpos. apply checkPosition_Verified in Hpos; assumption.
Qed.

Lemma visitBlocks_each F (Blocks : list BasicBlock) :
  visitBlocks F Blocks = Verified ->
  forall BB, BB ∈ Blocks -> visitBasicBlock F BB = Verified.
Proof.
  induction Blocks as [|BB0 rest IH]; cbn [visitBlocks]; intros Hok BB Hin.
  - apply not_elem_of_nil in Hin. contradiction.
  - rewrite andThen_Verified in Hok. destruct Hok as [H0 Hrest].
    apply elem_of_cons in Hin as [->|Hin]; auto.
Qed.

(** C2 (as amended): the position check of [visit] comes before the rule
    of the instruction: a non-terminator in last position and a
    terminator elsewhere are rejected whatever their own rule says, and
    in the right position the outcome is that of the rule.  Hence in a
    function that passes, every non-empty block ends in a terminator and
    has no terminator before its last instruction. *)
Theorem visit_terminator_position F (BB : BasicBlock) :
  (forall i Inst, BB !! i = Some Inst ->
     (isa_TermInst Inst = false -> isLastOf BB i = true ->
        visit F BB i Inst
          = AssertionFailed "Non-terminators cannot be the last in a block") /\
     (isa_TermInst Inst = true -> isLastOf BB i = false ->
        visit F BB i Inst
          = AssertionFailed "Terminator must be the last in block") /\
     (isa_TermInst Inst = isLastOf BB i ->
        visit F BB i Inst = dispatch F Inst)) /\
  (verify F = Verified -> BB ∈ getBlocks F -> BB <> [] ->
     (exists term, last BB = Some term /\ isa_TermInst term = true) /\
     (forall i Inst, BB !! i = Some Inst -> S i < length BB ->
        isa_TermInst Inst = false)).
Proof.
  split.
  - intros i Inst Hi. unfold visit, checkPosition.
    rewrite (lookup_nonempty BB i Inst Hi).
    repeat split; intros H1; try intros H2.
    + rewrite H1, H2. reflexivity.
    + rewrite H1, H2. reflexivity.
    + rewrite <- H1. destruct (isa_TermInst Inst); reflexivity.
  - intros Hok Hin Hne.
    pose proof (visitBasicBlock_terminators F BB
                  (visitBlocks_each F _ Hok BB Hin)) as Hterm.
    split.
    + destruct (last BB) as [term|] eqn:Hlast.
      * exists term. split; [reflexivity|].
        rewrite last_lookup in Hlast.
        rewrite (Hterm _ _ Hlast). apply isLastOf_true.
        destruct BB; [contradiction | cbn; lia].
      * apply last_None in Hlast. contradiction.
    + intros i Inst Hi Hlt. rewrite (Hterm _ _ Hi).
      unfold isLastOf. apply Nat.eqb_neq. lia.
Qed.

Lemma visit_terminator_position_witness :
  let F := sampleFunction sampleModule [entryBlock] in
  (verify F = Verified /\ entryBlock ∈ getBlocks F /\ entryBlock <> []) /\
  (exists term, last entryBlock = Some term /\ isa_TermInst term = true) /\
  (forall i Inst, entryBlock !! i = Some Inst -> S i < length entryBlock ->
     isa_TermInst Inst = false).
Proof.
  cbv zeta.
  assert (Hpre : verify (sampleFunction sampleModule [entryBlock]) = Verified /\
                 entryBlock ∈ getBlocks (sampleFunction sampleModule [entryBlock]) /\
                 entryBlock <> []).
  { split; [reflexivity|]. split; [apply list_elem_of_here | discriminate]. }
  split; [exact Hpre|].
  destruct Hpre as (Hok & Hin & Hne).
  exact (proj2 (visit_terminator_position
                  (sampleFunction sampleModule [entryBlock]) entryBlock)
               Hok Hin Hne).
Defined.

(** C2 (as stated) fails on the empty block: the walker visits none of
    its instructions, so it passes although it ends in no terminator. *)
Lemma empty_block_verifies :
  let F := sampleFunction sampleModule [[]] in
  verify F = Verified /\
  [] ∈ getBlocks F /\
  visitBasicBlock F [] = Verified /\
  ~ (exists term, last ([] : BasicBlock) = Some term /\ isa_TermInst term = true).
Proof.
  cbv zeta. split; [reflexivity|]. split; [apply list_elem_of_here|].
  split; [reflexivity|]. intros (term & Hlast & _). discriminate.
Qed.

End Terminators.

(** ** An unresolved signature behind a bad callee *)

Section UnresolvedSignature.

(** C5 (as stated) fails for a callee that is the address of a function:
    no signature is resolved for it, and the verifier stops in the
    ordinary assertion on the callee, not in a fatal error. *)
Lemma visitApplyInst_unresolved_address_callee :
  let F := sampleFunction emptyModule [] in
  let callee := mkValue 0 (addressOf (FunctionType IntTy IntTy)) in
  let args := [mkValue 1 (valueOf IntTy)] in
  getFunctionTypeInfo (getModule F) (getType callee) = None /\
  visitApplyInst F (valueOf IntTy) callee args
    = AssertionFailed "callee of apply cannot be an address" /\
  isFatal (visitApplyInst F (valueOf IntTy) callee args) = false /\
  isInvariantViolation (visitApplyInst F (valueOf IntTy) callee args) = true.
Proof. cbv zeta. repeat split; reflexivity. Qed.

End UnresolvedSignature.

(** ** Casts between archetypes and classes *)

Section ArchetypeCasts.







End ArchetypeCasts.

(** ** Return *)

Section Return.

(** C6: the return rule rejects a return iff its value is null; a return
    with a value is accepted whatever the type of the value and whatever
    the type of the enclosing function. *)
Theorem visitReturnInst_null_only F :
  (forall ReturnValue,
     visitReturnInst F ReturnValue
       = AssertionFailed "Return of null value is invalid"
     <-> ReturnValue = None) /\
  (forall ReturnValue,
     visitReturnInst F ReturnValue <> Verified <-> ReturnValue = None) /\
  (forall v, visitReturnInst F (Some v) = Verified).
Proof.
  split; [|split].
  - intros [v|]; cbn; split; congruence.
  - intros [v|]; cbn; split; congruence.
  - reflexivity.
Qed.

End Return.

(** ** Archetype method lookup *)

Section ArchetypeMethod.

Lemma visitArchetypeMethodInst_method Ty Operand input result :
  getSwiftType Ty = FunctionType input result ->
  input = getSwiftType (getType Operand) ->
  CanType_is_FunctionType result = true ->
  visitArchetypeMethodInst Ty Operand =
    if isAddress (getType Operand) then
      assert (is_ArchetypeType (getType Operand))
             "archetype_method must apply to an archetype address"
    else
      match getSwiftType (getType Operand) with
      | MetaTypeType instanceType =>
          assert (CanType_is_ArchetypeType instanceType)
                 "archetype_method must apply to an archetype metatype"
      | _ => Unreachable "method must apply to an address or metatype"
      end.
Proof.
  intros HTy Hin Hres. unfold visitArchetypeMethodInst. rewrite HTy.
  apply isEqual_eq in Hin. rewrite Hin, Hres. reflexivity.
Qed.

Lemma visitArchetypeMethodInst_not_method Ty Operand :
  ~ archetypeMethodType Ty (getType Operand) ->
  isInvariantViolation (visitArchetypeMethodInst Ty Operand) = true.
Proof.
  intros Hnot. unfold visitArchetypeMethodInst.
  destruct (getSwiftType Ty) as [| | | |input result| | | | | |] eqn:HTy;
    try reflexivity.
  destruct (isEqual input (getSwiftType (getType Operand))) eqn:Hin;
    [|reflexivity].
  destruct (CanType_is_FunctionType result) eqn:Hres; [|reflexivity].
  exfalso. apply Hnot. exists input, result.
  apply isEqual_eq in Hin. auto.
Qed.

Lemma archetypeMethodType_dec Ty operandType :
  archetypeMethodType Ty operandType \/ ~ archetypeMethodType Ty operandType.
Proof.
  unfold archetypeMethodType.
  destruct (getSwiftType Ty) as [| | | |input result| | | | | |];
    try (right; intros (i & r & H & _); discriminate).
  destruct (decide (input = getSwiftType operandType)) as [Hin|Hin].
  - destruct (CanType_is_FunctionType result) eqn:Hres.
    + left. eauto.
    + right. intros (i & r & H & _ & Hr). injection H as <- <-. congruence.
  - right. intros (i & r & H & Hi & _). injection H as <- <-. congruence.
Qed.

(** C7 (as amended): the archetype_method rule accepts iff the result is
    a concrete function type whose input is the underlying type of the
    operand and whose result is a function type, and the operand is the
    address of an archetype or a metatype value of an archetype.  The
    verifier stops in the fatal [llvm_unreachable] iff these three tests
    on the method type pass and the operand is neither an address nor a
    metatype; an address of something else, a metatype of something
    else, and a failed test on the method type are ordinary assertion
    failures. *)
Theorem visitArchetypeMethodInst_outcome Ty Operand :
  (visitArchetypeMethodInst Ty Operand = Verified <->
     archetypeMethodType Ty (getType Operand) /\
     archetypeMethodOperand (getType Operand)) /\
  (isFatal (visitArchetypeMethodInst Ty Operand) = true <->
     archetypeMethodType Ty (getType Operand) /\
     isAddress (getType Operand) = false /\
     is_MetaTypeType (getType Operand) = false) /\
  (isFatal (visitArchetypeMethodInst Ty Operand) = true <->
     visitArchetypeMethodInst Ty Operand
       = Unreachable "method must apply to an address or metatype") /\
  (isInvariantViolation (visitArchetypeMethodInst Ty Operand) = true <->
     ~ archetypeMethodType Ty (getType Operand) \/
     (isAddress (getType Operand) = true /\
      is_ArchetypeType (getType Operand) = false) \/
     (isAddress (getType Operand) = false /\
      exists instanceType,
        getSwiftType (getType Operand) = MetaTypeType instanceType /\
        CanType_is_ArchetypeType instanceType = false)).
Proof.
  destruct (archetypeMethodType_dec Ty (getType Operand)) as [Hm|Hm].
  - destruct Hm as (input & result & HTy & Hin & Hres).
    assert (Hm : archetypeMethodType Ty (getType Operand))
      by (exists input, result; auto).
    rewrite (visitArchetypeMethodInst_method Ty Operand input result HTy Hin Hres).
    unfold archetypeMethodOperand, is_ArchetypeType, is_MetaTypeType.
    destruct (isAddress (getType Operand)).
    + destruct (CanType_is_ArchetypeType (getSwiftType (getType Operand)));
        cbn; (split; [|split; [|split]]); split; intros H; firstorder congruence.
    + destruct (getSwiftType (getType Operand)) as [| | | | | |inst| | | |];
        cbn; try destruct (CanType_is_ArchetypeType inst) eqn:Hinst; cbn;
        (split; [|split; [|split]]); split; intros H;
        try discriminate; try reflexivity; try tauto;
        firstorder congruence.
  - pose proof (visitArchetypeMethodInst_not_method Ty Operand Hm) as Hviol.
    destruct (visitArchetypeMethodInst Ty Operand); cbn in Hviol |- *;
      try discriminate.
    (split; [|split; [|split]]); split; intros H;
      try discriminate; try tauto.
Qed.

(** C7 (as stated) fails for the address of an [Int]: the method type
    passes its three tests, the operand is neither of the two accepted
    shapes, and the verifier stops in an ordinary assertion, not in the
    fatal error. *)
Lemma visitArchetypeMethodInst_address_of_struct :
  let Operand := mkValue 0 (addressOf IntTy) in
  let Ty := valueOf (FunctionType IntTy (FunctionType UnitTy UnitTy)) in
  archetypeMethodType Ty (getType Operand) /\
  ~ archetypeMethodOperand (getType Operand) /\
  visitArchetypeMethodInst Ty Operand
    = AssertionFailed "archetype_method must apply to an archetype address" /\
  isFatal (visitArchetypeMethodInst Ty Operand) = false.
Proof.
  cbv zeta. split; [|split; [|split; reflexivity]].
  - exists IntTy, (FunctionType UnitTy UnitTy). repeat split; reflexivity.
  - intros [[_ H]|[H _]]; discriminate.
Qed.

End ArchetypeMethod.

(** ** Load and store *)

Section LoadStore.

Lemma visitLoadInst_Verified Ty LValue :
  visitLoadInst Ty LValue = Verified <->
  isAddress (getType LValue) = true /\
  isAddress Ty = false /\
  Ty = getObjectType (getType LValue).
Proof. unfold visitLoadInst. verified. intuition congruence. Qed.

Lemma visitStoreInst_Verified Src Dest :
  visitStoreInst Src Dest = Verified <->
  isAddress (getType Dest) = true /\
  isAddress (getType Src) = false /\
  getObjectType (getType Dest) = getType Src.
Proof. unfold visitStoreInst. verified. intuition congruence. Qed.

(** C8: for an address [a] whose pointee type is [T] and a value [v] of
    type [T], the store of [v] to [a] and the load from [a] with result
    type [T] both pass, one after the other, and a load from [a] that
    passes has result type [T]; the load rule accepts iff the source is
    an address, the result is not, and the result type is the pointee
    type of the source. *)
Theorem load_store_round_trip (a v : Value) (T : SILType) :
  isAddress (getType a) = true ->
  getObjectType (getType a) = T ->
  getType v = T ->
  visitStoreInst v a = Verified /\
  visitLoadInst T a = Verified /\
  (visitStoreInst v a ;; visitLoadInst T a) = Verified /\
  (forall Ty, visitLoadInst Ty a = Verified -> Ty = T) /\
  (forall Ty LValue,
     visitLoadInst Ty LValue = Verified <->
     isAddress (getType LValue) = true /\
     isAddress Ty = false /\
     Ty = getObjectType (getType LValue)).
Proof.
  intros Haddr Hobj Hv.
  assert (Hstore : visitStoreInst v a = Verified).
  { apply visitStoreInst_Verified. rewrite Hv, <- Hobj. auto. }
  assert (Hload : visitLoadInst T a = Verified).
  { apply visitLoadInst_Verified. rewrite <- Hobj. auto. }
  split; [exact Hstore|]. split; [exact Hload|]. split.
  - rewrite Hstore. exact Hload.
  - split.
    + intros Ty HTy. apply visitLoadInst_Verified in HTy as (_ & _ & ->).
      exact Hobj.
    + intros Ty LValue. apply visitLoadInst_Verified.
Qed.

Lemma load_store_round_trip_witness :
  let a := mkValue 1 (addressOf IntTy) in
  let v := mkValue 0 (valueOf IntTy) in
  let T := valueOf IntTy in
  (isAddress (getType a) = true /\
   getObjectType (getType a) = T /\
   getType v = T) /\
  visitStoreInst v a = Verified /\
  visitLoadInst T a = Verified /\
  (visitStoreInst v a ;; visitLoadInst T a) = Verified /\
  (forall Ty, visitLoadInst Ty a = Verified -> Ty = T) /\
  (forall Ty LValue,
     visitLoadInst Ty LValue = Verified <->
     isAddress (getType LValue) = true /\
     isAddress Ty = false /\
     Ty = getObjectType (getType LValue)).
Proof.
  cbv zeta. split.
  - repeat split; reflexivity.
  - apply (load_store_round_trip
             (mkValue 1 (addressOf IntTy)) (mkValue 0 (valueOf IntTy))
             (valueOf IntTy));
      reflexivity.
Defined.

End LoadStore.

(** ** Reference counting *)

Section ReferenceCounting.

Lemma visitRetainInst_Verified Operand :
  visitRetainInst Operand = Verified <->
  hasReferenceSemantics (getType Operand) = true /\
  isAddress (getType Operand) = false.
Proof. unfold visitRetainInst. verified. tauto. Qed.

Lemma visitReleaseInst_Verified Operand :
  visitReleaseInst Operand = Verified <->
  hasReferenceSemantics (getType Operand) = true /\
  isAddress (getType Operand) = false.
Proof. unfold visitReleaseInst. verified. tauto. Qed.

Lemma visitAllocRefInst_Verified Ty :
  visitAllocRefInst Ty = Verified <->
  hasReferenceSemantics Ty = true /\ isAddress Ty = false.
Proof. unfold visitAllocRefInst. verified. tauto. Qed.

Lemma visitDeallocRefInst_Verified Operand :
  visitDeallocRefInst Operand = Verified <->
  hasReferenceSemantics (getType Operand) = true /\
  isAddress (getType Operand) = false.
Proof. unfold visitDeallocRefInst. verified. tauto. Qed.

(** C9: each of retain, release, alloc_ref (on its result type) and
    dealloc_ref accepts iff the type has reference semantics and is not
    an address; an address is rejected, and so is a type without
    reference semantics. *)
Theorem reference_semantics_rules :
  (forall Operand,
     visitRetainInst Operand = Verified <->
     hasReferenceSemantics (getType Operand) = true /\
     isAddress (getType Operand) = false) /\
  (forall Operand,
     visitReleaseInst Operand = Verified <->
     hasReferenceSemantics (getType Operand) = true /\
     isAddress (getType Operand) = false) /\
  (forall Ty,
     visitAllocRefInst Ty = Verified <->
     hasReferenceSemantics Ty = true /\ isAddress Ty = false) /\
  (forall Operand,
     visitDeallocRefInst Operand = Verified <->
     hasReferenceSemantics (getType Operand) = true /\
     isAddress (getType Operand) = false) /\
  (forall Operand,
     isAddress (getType Operand) = true \/
     hasReferenceSemantics (getType Operand) = false ->
     visitRetainInst Operand <> Verified /\
     visitReleaseInst Operand <> Verified /\
     visitAllocRefInst (getType Operand) <> Verified /\
     visitDeallocRefInst Operand <> Verified).
Proof.
  split; [exact visitRetainInst_Verified|].
  split; [exact visitReleaseInst_Verified|].
  split; [exact visitAllocRefInst_Verified|].
  split; [exact visitDeallocRefInst_Verified|].
  intros Operand Hbad.
  rewrite visitRetainInst_Verified, visitReleaseInst_Verified,
    visitAllocRefInst_Verified, visitDeallocRefInst_Verified.
  destruct Hbad as [H|H]; rewrite H; repeat split; intros [? ?]; discriminate.
Qed.

(** C10: the retain rule and the release rule accept the same operands,
    and whether they accept depends on nothing but the address qualifier
    and the reference semantics of the operand type. *)
Theorem retain_release_agree :
  (forall Operand,
     visitRetainInst Operand = Verified <->
     visitReleaseInst Operand = Verified) /\
  (forall a b,
     isAddress (getType a) = isAddress (getType b) ->
     hasReferenceSemantics (getType a) = hasReferenceSemantics (getType b) ->
     (visitRetainInst a = Verified <-> visitRetainInst b = Verified) /\
     (visitReleaseInst a = Verified <-> visitReleaseInst b = Verified)).
Proof.
  split.
  - intros Operand.
    rewrite visitRetainInst_Verified, visitReleaseInst_Verified. reflexivity.
  - intros a b Haddr Href.
    rewrite !visitRetainInst_Verified, !visitReleaseInst_Verified, Haddr, Href.
    split; reflexivity.
Qed.

End ReferenceCounting.

(** ** The walk over blocks and functions *)

Section Walk.

Lemma visitInstructions_Verified F BB (Insts : list Instruction) : forall i,
  visitInstructions F BB i Insts = Verified <->
  forall k Inst, Insts !! k = Some Inst -> visit F BB (i + k) Inst = Verified.
Proof.
  induction Insts as [|Inst0 rest IH]; intros i; cbn [visitInstructions].
  - split; [intros _ k Inst Hk; destruct k; discriminate | reflexivity].
  - rewrite andThen_Verified, IH. split.
    + intros [H0 Hrest] [|k] Inst Hk; cbn in Hk.
      * injection Hk as <-. rewrite Nat.add_0_r. exact H0.
      * replace (i + S k) with (S i + k) by lia. auto.
    + intros Hall. split.
      * specialize (Hall 0 Inst0 eq_refl). rewrite Nat.add_0_r in Hall. exact Hall.
      * intros k Inst Hk. replace (S i + k) with (i + S k) by lia.
        apply Hall. exact Hk.
Qed.

Lemma visit_Verified F (BB : BasicBlock) i Inst :
  BB !! i = Some Inst ->
  visit F BB i Inst = Verified <->
  isa_TermInst Inst = isLastOf BB i /\ dispatch F Inst = Verified.
Proof.
  intros Hi. unfold visit.
  rewrite andThen_Verified, (checkPosition_Verified BB i Inst Hi). reflexivity.
Qed.

Lemma visitBlocks_Verified F (Blocks : list BasicBlock) :
  visitBlocks F Blocks = Verified <->
  forall BB, BB ∈ Blocks -> visitBasicBlock F BB = Verified.
Proof.
  induction Blocks as [|BB0 rest IH]; cbn [visitBlocks].
  - split; [intros _ BB Hin; apply not_elem_of_nil in Hin; contradiction
           | reflexivity].
  - rewrite andThen_Verified, IH. split.
    + intros [H0 Hrest] BB Hin.
      apply elem_of_cons in Hin as [->|Hin]; auto.
    + intros Hall. split.
      * apply Hall. apply list_elem_of_here.
      * intros BB Hin. apply Hall. apply list_elem_of_further. exact Hin.
Qed.

(** X1: a function passes iff in each of its blocks every instruction is
    a terminator exactly when it is the last one of the block, and passes
    the rule of its class. *)
Theorem verify_Verified F :
  verify F = Verified <->
  forall BB, BB ∈ getBlocks F ->
    forall i Inst, BB !! i = Some Inst ->
      isa_TermInst Inst = isLastOf BB i /\ dispatch F Inst = Verified.
Proof.
  unfold verify, visitFunction. rewrite visitBlocks_Verified.
  split; intros Hall BB Hin.
  - intros i Inst Hi. apply visit_Verified; [exact Hi|].
    specialize (Hall BB Hin). unfold visitBasicBlock in Hall.
    rewrite visitInstructions_Verified in Hall. apply (Hall i Inst Hi).
  - unfold visitBasicBlock. apply visitInstructions_Verified.
    intros k Inst Hk. cbn. apply visit_Verified; [exact Hk|].
    apply (Hall BB Hin k Inst Hk).
Qed.

(** The walk over a list of instructions stops at the first one whose
    visit does not return normally, with the outcome of that visit. *)
Lemma visitInstructions_first_failure F BB (Insts : list Instruction) :
  forall i n Inst,
  Insts !! n = Some Inst ->
  (forall k Inst', k < n -> Insts !! k = Some Inst' ->
     visit F BB (i + k) Inst' = Verified) ->
  visit F BB (i + n) Inst <> Verified ->
  visitInstructions F BB i Insts = visit F BB (i + n) Inst.
Proof.
  induction Insts as [|Inst0 rest IH]; intros i n Inst Hn Hbefore Hfail.
  - destruct n; discriminate.
  - cbn [visitInstructions]. destruct n as [|n]; cbn in Hn.
    + injection Hn as <-. rewrite Nat.add_0_r in *.
      destruct (visit F BB i Inst0); try reflexivity. contradiction.
    + assert (H0 : visit F BB i Inst0 = Verified).
      { specialize (Hbefore 0 Inst0). rewrite Nat.add_0_r in Hbefore.
        apply Hbefore; [lia | reflexivity]. }
      rewrite H0. cbn [andThen].
      replace (i + S n) with (S i + n) in * by lia.
      apply IH; [exact Hn| |exact Hfail].
      intros k Inst' Hk Hlook. replace (S i + k) with (i + S k) by lia.
      apply Hbefore; [lia | exact Hlook].
Qed.

(** The walk over a list of blocks stops at the first block that does
    not pass, with the outcome of that block. *)
Lemma visitBlocks_first_failure F (before after : list BasicBlock) BB :
  (forall BB', BB' ∈ before -> visitBasicBlock F BB' = Verified) ->
  visitBasicBlock F BB <> Verified ->
  visitBlocks F (before ++ BB :: after)%list = visitBasicBlock F BB.
Proof.
  intros Hbefore Hfail. induction before as [|B0 rest IH]; cbn.
  - destruct (visitBasicBlock F BB); try reflexivity. contradiction.
  - rewrite (Hbefore B0) by apply list_elem_of_here. cbn [andThen].
    apply IH. intros BB' Hin. apply Hbefore.
    apply list_elem_of_further. exact Hin.
Qed.

End Walk.

(** ** Editing a block that passes *)

Local Open Scope list_scope.

Section BlockEdits.

Lemma visit_terminator_not_last F (BB : BasicBlock) i Inst :
  isa_TermInst Inst = true -> isLastOf BB i = false ->
  visit F BB i Inst = AssertionFailed "Terminator must be the last in block".
Proof. intros Ht Hl. unfold visit, checkPosition. rewrite Ht, Hl. reflexivity. Qed.

Lemma visit_non_terminator_last F (BB : BasicBlock) i Inst :
  BB !! i = Some Inst ->
  isa_TermInst Inst = false -> isLastOf BB i = true ->
  visit F BB i Inst
    = AssertionFailed "Non-terminators cannot be the last in a block".
Proof.
  intros Hi Ht Hl. unfold visit, checkPosition.
  rewrite Ht, Hl, (lookup_nonempty BB i Inst Hi). reflexivity.
Qed.

Lemma visit_non_terminator_inside F (BB : BasicBlock) i Inst :
  BB !! i = Some Inst ->
  isa_TermInst Inst = false -> isLastOf BB i = false ->
  visit F BB i Inst = dispatch F Inst.
Proof.
  intros Hi Ht Hl. unfold visit, checkPosition.
  rewrite Ht, Hl, (lookup_nonempty BB i Inst Hi). reflexivity.
Qed.

Lemma visitBasicBlock_each F (BB : BasicBlock) :
  visitBasicBlock F BB = Verified ->
  forall i Inst, BB !! i = Some Inst ->
    isa_TermInst Inst = isLastOf BB i /\ dispatch F Inst = Verified.
Proof.
  intros Hok i Inst Hi. unfold visitBasicBlock in Hok.
  rewrite visitInstructions_Verified in Hok.
  apply visit_Verified; [exact Hi|]. apply (Hok i Inst Hi).
Qed.

Lemma isLastOf_false (BB : BasicBlock) i :
  S i <> length BB -> isLastOf BB i = false.
Proof. intros H. unfold isLastOf. apply Nat.eqb_neq. exact H. Qed.

(** X4: nothing can be appended to a block that passes: with one more
    instruction after it, whatever its class, the former last
    instruction is a terminator that is no longer last, and the block
    ends in the assertion on the position of terminators. *)
Theorem visitBasicBlock_append F (BB : BasicBlock) Inst :
  visitBasicBlock F BB = Verified ->
  BB <> [] ->
  visitBasicBlock F (BB ++ [Inst])
    = AssertionFailed "Terminator must be the last in block".
Proof.
  intros Hok Hne.
  pose proof (visitBasicBlock_each F BB Hok) as Heach.
  destruct (lookup_lt_is_Some_2 BB (length BB - 1)) as [term Hterm].
  { destruct BB; [contradiction | cbn; lia]. }
  assert (Hlen : S (length BB - 1) = length BB).
  { destruct BB; [contradiction | cbn; lia]. }
  destruct (Heach _ _ Hterm) as [Hkind _].
  rewrite (proj2 (isLastOf_true BB _) Hlen) in Hkind.
  unfold visitBasicBlock.
  rewrite (visitInstructions_first_failure F (BB ++ [Inst]) (BB ++ [Inst])
             0 (length BB - 1) term).
  - cbn. apply visit_terminator_not_last; [exact Hkind|].
    apply isLastOf_false. rewrite length_app. cbn. lia.
  - rewrite lookup_app_l by lia. exact Hterm.
  - intros k Inst' Hk Hlook. cbn.
    rewrite lookup_app_l in Hlook by lia.
    destruct (Heach _ _ Hlook) as [Hk' Hrule].
    rewrite (isLastOf_false BB k) in Hk' by lia.
    rewrite visit_non_terminator_inside; [exact Hrule| |exact Hk'|].
    + apply lookup_app_l_Some. exact Hlook.
    + apply isLastOf_false. rewrite length_app. cbn. lia.
  - cbn. rewrite visit_terminator_not_last; [discriminate|exact Hkind|].
    apply isLastOf_false. rewrite length_app. cbn. lia.
Qed.

Lemma visitBasicBlock_append_witness :
  let F := sampleFunction sampleModule [] in
  (visitBasicBlock F entryBlock = Verified /\ entryBlock <> []) /\
  visitBasicBlock F (entryBlock ++ [BranchInst 0])
    = AssertionFailed "Terminator must be the last in block".
Proof.
  cbv zeta. split; [split; [reflexivity | discriminate]|].
  apply (visitBasicBlock_append (sampleFunction sampleModule []) entryBlock
           (BranchInst 0)); [reflexivity | discriminate].
Defined.

(** X5: a block that passes cannot lose its terminator: what is left of
    it, if anything, ends in a non-terminator and stops in the assertion
    on the last instruction of a block. *)
Theorem visitBasicBlock_drop_terminator F (front : list Instruction) term :
  visitBasicBlock F (front ++ [term]) = Verified ->
  front <> [] ->
  visitBasicBlock F front
    = AssertionFailed "Non-terminators cannot be the last in a block".
Proof.
  intros Hok Hne.
  pose proof (visitBasicBlock_each F _ Hok) as Heach.
  destruct (lookup_lt_is_Some_2 front (length front - 1)) as [lastI Hlast].
  { destruct front; [contradiction | cbn; lia]. }
  assert (Hlen : S (length front - 1) = length front).
  { destruct front; [contradiction | cbn; lia]. }
  assert (Hinside : forall k Inst', front !! k = Some Inst' ->
            isa_TermInst Inst' = false /\ dispatch F Inst' = Verified).
  { intros k Inst' Hlook.
    pose proof (lookup_lt_Some _ _ _ Hlook) as Hk.
    destruct (Heach k Inst') as [Hkind Hrule].
    - apply lookup_app_l_Some. exact Hlook.
    - rewrite isLastOf_false in Hkind; [auto|].
      rewrite length_app. cbn. lia. }
  destruct (Hinside _ _ Hlast) as [Hkind _].
  unfold visitBasicBlock.
  rewrite (visitInstructions_first_failure F front front
             0 (length front - 1) lastI).
  - cbn. apply visit_non_terminator_last; [exact Hlast|exact Hkind|].
    apply isLastOf_true. exact Hlen.
  - exact Hlast.
  - intros k Inst' Hk Hlook. cbn.
    destruct (Hinside _ _ Hlook) as [Hk' Hrule].
    rewrite visit_non_terminator_inside; [exact Hrule|exact Hlook|exact Hk'|].
    apply isLastOf_false. lia.
  - cbn. rewrite visit_non_terminator_last; [discriminate|exact Hlast|exact Hkind|].
    apply isLastOf_true. exact Hlen.
Qed.

Lemma visitBasicBlock_drop_terminator_witness :
  let F := sampleFunction sampleModule [] in
  let front := [ AllocVarInst (addressOf IntTy);
                 StoreInst (mkValue 0 (valueOf IntTy)) (mkValue 1 (addressOf IntTy));
                 LoadInst (valueOf IntTy) (mkValue 1 (addressOf IntTy)) ] in
  let term := ReturnInst (Some (mkValue 3 (valueOf IntTy))) in
  (visitBasicBlock F (front ++ [term]) = Verified /\ front <> []) /\
  visitBasicBlock F front
    = AssertionFailed "Non-terminators cannot be the last in a block".
Proof.
  cbv zeta. split; [split; [reflexivity | discriminate]|].
  apply (visitBasicBlock_drop_terminator (sampleFunction sampleModule [])
           [ AllocVarInst (addressOf IntTy);
             StoreInst (mkValue 0 (valueOf IntTy)) (mkValue 1 (addressOf IntTy));
             LoadInst (valueOf IntTy) (mkValue 1 (addressOf IntTy)) ]
           (ReturnInst (Some (mkValue 3 (valueOf IntTy)))));
    [reflexivity | discriminate].
Defined.

End BlockEdits.

(** ** Fatal stops *)

Section FatalStops.

Lemma isFatal_andThen s1 s2 :
  isFatal (s1 ;; s2) = true -> isFatal s1 = true \/ isFatal s2 = true.
Proof. destruct s1; cbn; auto. Qed.

Lemma isFatal_assert_andThen cond msg s :
  isFatal (assert cond msg ;; s) = true -> isFatal s = true.
Proof. destruct cond; cbn; [auto | discriminate]. Qed.

(** Decides every assertion of a rule made of assertions only. *)
Ltac decide_asserts :=
  repeat match goal with
         | |- context [assert ?c _] => destruct c; cbn
         | |- context [match getSwiftType ?t with _ => _ end] =>
             destruct (getSwiftType t); cbn
         end.

Lemma dispatch_fatal F Inst :
  isFatal (dispatch F Inst) = true -> mayStopFatally Inst = true.
Proof.
  destruct Inst; cbn [dispatch mayStopFatally]; try (intros _; reflexivity);
    unfold visitAllocVarInst, visitAllocRefInst, visitConstantRefInst,
      visitIntegerLiteralInst, visitLoadInst, visitStoreInst,
      visitCopyAddrInst, visitZeroAddrInst, visitZeroValueInst,
      visitSpecializeInst, visitTupleInst, visitMetatypeInst,
      visitAssociatedMetatypeInst, visitRetainInst, visitReleaseInst,
      visitDeallocVarInst, visitDeallocRefInst, visitDestroyAddrInst,
      visitIndexAddrInst, visitExtractInst, visitElementAddrInst,
      visitRefElementAddrInst, visitProtocolMethodInst,
      visitProjectExistentialInst, visitInitExistentialInst,
      visitDeinitExistentialInst, visitArchetypeToSuperInst,
      visitSuperToArchetypeInst, visitDowncastInst, visitIntegerValueInst,
      visitReturnInst, visitBranchInst, visitCondBranchInst;
    decide_asserts; discriminate.
Qed.

Lemma checkPosition_not_fatal BB i Inst : isFatal (checkPosition BB i Inst) = false.
Proof.
  unfold checkPosition.
  destruct (negb (isa_TermInst Inst)), (negb (empty BB)), (isLastOf BB i);
    reflexivity.
Qed.

Lemma visit_fatal F BB i Inst :
  isFatal (visit F BB i Inst) = true -> isFatal (dispatch F Inst) = true.
Proof.
  unfold visit. intros H. apply isFatal_andThen in H as [H|H]; [|exact H].
  rewrite checkPosition_not_fatal in H. discriminate.
Qed.

Lemma visitInstructions_fatal F BB (Insts : list Instruction) : forall i,
  isFatal (visitInstructions F BB i Insts) = true ->
  exists Inst, Inst ∈ Insts /\ isFatal (dispatch F Inst) = true.
Proof.
  induction Insts as [|Inst0 rest IH]; intros i; cbn [visitInstructions].
  - discriminate.
  - intros H. apply isFatal_andThen in H as [H|H].
    + exists Inst0. split; [apply list_elem_of_here | eapply visit_fatal, H].
    + destruct (IH _ H) as (Inst & Hin & Hf).
      exists Inst. split; [apply list_elem_of_further, Hin | exact Hf].
Qed.

Lemma visitBlocks_fatal F (Blocks : list BasicBlock) :
  isFatal (visitBlocks F Blocks) = true ->
  exists BB Inst, BB ∈ Blocks /\ Inst ∈ BB /\ isFatal (dispatch F Inst) = true.
Proof.
  induction Blocks as [|BB0 rest IH]; cbn [visitBlocks].
  - discriminate.
  - intros H. apply isFatal_andThen in H as [H|H].
    + destruct (visitInstructions_fatal F BB0 BB0 0 H) as (Inst & Hin & Hf).
      exists BB0, Inst. split; [apply list_elem_of_here | auto].
    + destruct (IH H) as (BB & Inst & HB & Hin & Hf).
      exists BB, Inst. split; [apply list_elem_of_further, HB | auto].
Qed.

(** X6: only an apply or an archetype_method can stop the verifier
    fatally; every other rule either passes or fails an assertion.  A
    function whose verification stops fatally contains such an
    instruction; if it is an apply, the callee is a non-address function
    value whose signature is not resolved. *)
Theorem verify_fatal F :
  isFatal (verify F) = true ->
  exists BB Inst,
    BB ∈ getBlocks F /\ Inst ∈ BB /\
    isFatal (dispatch F Inst) = true /\
    mayStopFatally Inst = true /\
    (forall Ty Callee Arguments, Inst = ApplyInst Ty Callee Arguments ->
       isAddress (getType Callee) = false /\
       is_FunctionType (getType Callee) = true /\
       getFunctionTypeInfo (getModule F) (getType Callee) = None).
Proof.
  intros H. destruct (visitBlocks_fatal F _ H) as (BB & Inst & HB & Hin & Hf).
  exists BB, Inst. repeat (split; [assumption|]).
  split; [apply (dispatch_fatal F), Hf|].
  intros Ty Callee Arguments ->. cbn [dispatch] in Hf.
  unfold visitApplyInst in Hf.
  destruct (isAddress (getType Callee)); [discriminate|].
  destruct (is_FunctionType (getType Callee)); [|discriminate].
  destruct (getFunctionTypeInfo (getModule F) (getType Callee)) as [ti|];
    [|auto].
  cbn [negb assert andThen] in Hf.
  apply isFatal_assert_andThen in Hf.
  apply isFatal_andThen in Hf as [Hf|Hf].
  - exfalso. revert Hf. generalize 0 (length Arguments).
    intros i n. revert i.
    induction n as [|n IH]; intros i; cbn [visitApplyArguments]; [discriminate|].
    destruct (Arguments !! i); [|discriminate].
    destruct (getInputTypes ti !! i); [|discriminate].
    intros Hf. apply isFatal_assert_andThen in Hf. eapply IH, Hf.
  - rewrite assert_not_fatal in Hf. discriminate.
Qed.

Lemma verify_fatal_witness :
  let F := sampleFunction emptyModule
             [[ ApplyInst (valueOf IntTy)
                  (mkValue 0 (valueOf (FunctionType IntTy IntTy)))
                  [mkValue 1 (valueOf IntTy)];
                ReturnInst (Some (mkValue 2 (valueOf IntTy))) ]] in
  isFatal (verify F) = true /\
  exists BB Inst,
    BB ∈ getBlocks F /\ Inst ∈ BB /\
    isFatal (dispatch F Inst) = true /\
    mayStopFatally Inst = true /\
    (forall Ty Callee Arguments, Inst = ApplyInst Ty Callee Arguments ->
       isAddress (getType Callee) = false /\
       is_FunctionType (getType Callee) = true /\
       getFunctionTypeInfo (getModule F) (getType Callee) = None).
Proof.
  cbv zeta. split; [reflexivity|].
  apply (verify_fatal
           (sampleFunction emptyModule
              [[ ApplyInst (valueOf IntTy)
                   (mkValue 0 (valueOf (FunctionType IntTy IntTy)))
                   [mkValue 1 (valueOf IntTy)];
                 ReturnInst (Some (mkValue 2 (valueOf IntTy))) ]])).
  reflexivity.
Defined.

End FatalStops.

(** ** The order of the checks of the apply rule *)

Section ApplyOrder.

(** Inside the bounds of both arrays the loop either passes or fails the
    assertion on the input types; the index assertion of [ArrayRef] is
    out of reach. *)
Lemma visitApplyArguments_in_bounds (Arguments : list Value)
    (InputTypes : list SILType) n : forall i,
  i + n <= length Arguments -> i + n <= length InputTypes ->
  visitApplyArguments Arguments InputTypes i n = Verified \/
  visitApplyArguments Arguments InputTypes i n
    = AssertionFailed "input types to apply don't match function input types".
Proof.
  induction n as [|n IH]; intros i Ha Hi; cbn [visitApplyArguments]; [auto|].
  destruct (lookup_lt_is_Some_2 Arguments i) as [arg ->]; [lia|].
  destruct (lookup_lt_is_Some_2 InputTypes i) as [input ->]; [lia|].
  destruct (SILType_eqb (getType arg) input); cbn; [|auto].
  apply IH; lia.
Qed.

(** X7: with a callee that passes its checks and a resolved signature,
    the apply rule compares the number of arguments first, then the
    argument types in order, then the result type, and reports the first
    of these that fails; it never reads past the end of the arguments or
    of the inputs, and it does not stop fatally. *)
Theorem visitApplyInst_check_order F Ty Callee (Arguments : list Value) ti :
  isAddress (getType Callee) = false ->
  is_FunctionType (getType Callee) = true ->
  getFunctionTypeInfo (getModule F) (getType Callee) = Some ti ->
  (length Arguments <> length (getInputTypes ti) ->
     visitApplyInst F Ty Callee Arguments = AssertionFailed
       "apply doesn't have right number of arguments for function") /\
  (length Arguments = length (getInputTypes ti) ->
   (exists i arg input,
      Arguments !! i = Some arg /\ getInputTypes ti !! i = Some input /\
      getType arg <> input) ->
     visitApplyInst F Ty Callee Arguments = AssertionFailed
       "input types to apply don't match function input types") /\
  (length Arguments = length (getInputTypes ti) ->
   (forall i arg, Arguments !! i = Some arg ->
                  getInputTypes ti !! i = Some (getType arg)) ->
   Ty <> getResultType ti ->
     visitApplyInst F Ty Callee Arguments = AssertionFailed
       "type of apply instruction doesn't match function result type") /\
  visitApplyInst F Ty Callee Arguments <> AssertionFailed "Invalid index!" /\
  isFatal (visitApplyInst F Ty Callee Arguments) = false.
Proof.
  intros Haddr Hfn Hti. unfold visitApplyInst.
  rewrite Haddr, Hfn, Hti. cbn [negb assert andThen].
  destruct (Nat.eqb (length Arguments) (length (getInputTypes ti))) eqn:Hlen.
  - apply Nat.eqb_eq in Hlen. cbn [assert andThen].
    pose proof (visitApplyArguments_positional Arguments (getInputTypes ti) Hlen)
      as Hpos.
    destruct (visitApplyArguments_in_bounds Arguments (getInputTypes ti)
                (length Arguments) 0) as [Hloop|Hloop]; [lia|lia| |].
    + rewrite Hloop in *. cbn [andThen].
      split; [intros Hne; contradiction|].
      split.
      { intros _ (i & arg & input & Ha & Hi & Hne).
        apply (proj1 Hpos eq_refl) in Ha. congruence. }
      split.
      { intros _ _ Hne.
        destruct (SILType_eqb Ty (getResultType ti)) eqn:Heq; [|reflexivity].
        apply SILType_eqb_eq in Heq. contradiction. }
      destruct (SILType_eqb Ty (getResultType ti)); cbn;
        split; [discriminate|reflexivity|discriminate|reflexivity].
    + rewrite Hloop in *. cbn [andThen].
      split; [intros Hne; contradiction|].
      split; [reflexivity|].
      split; [|split; [discriminate|reflexivity]].
      intros _ Hall _. apply Hpos in Hall. discriminate.
  - apply Nat.eqb_neq in Hlen. cbn [assert andThen].
    split; [reflexivity|].
    split; [intros Heq; contradiction|].
    split; [intros Heq; contradiction|].
    split; [discriminate|reflexivity].
Qed.

Lemma visitApplyInst_check_order_witness :
  let F := sampleFunction sampleModule [] in
  let callee :=
    mkValue 0 (valueOf (FunctionType (TupleType [IntTy; BoolTy]) IntTy)) in
  let args := [mkValue 1 (valueOf BoolTy); mkValue 2 (valueOf IntTy)] in
  let ti := mkSILFunctionTypeInfo [valueOf IntTy; valueOf BoolTy] (valueOf IntTy) in
  length args = length (getInputTypes ti) /\
  (exists i arg input,
     args !! i = Some arg /\ getInputTypes ti !! i = Some input /\
     getType arg <> input) /\
  visitApplyInst F (valueOf BoolTy) callee args = AssertionFailed
    "input types to apply don't match function input types".
Proof.
  cbv zeta.
  assert (Hmis : exists i arg input,
            [mkValue 1 (valueOf BoolTy); mkValue 2 (valueOf IntTy)] !! i
              = Some arg /\
            [valueOf IntTy; valueOf BoolTy] !! i = Some input /\
            getType arg <> input).
  { exists 0, (mkValue 1 (valueOf BoolTy)), (valueOf IntTy).
    repeat split; discriminate. }
  split; [reflexivity|]. split; [exact Hmis|].
  exact (proj1 (proj2 (visitApplyInst_check_order
           (sampleFunction sampleModule []) (valueOf BoolTy)
           (mkValue 0 (valueOf (FunctionType (TupleType [IntTy; BoolTy]) IntTy)))
           [mkValue 1 (valueOf BoolTy); mkValue 2 (valueOf IntTy)]
           (mkSILFunctionTypeInfo [valueOf IntTy; valueOf BoolTy] (valueOf IntTy))
           eq_refl eq_refl eq_refl)) eq_refl Hmis).
Defined.

End ApplyOrder.

(** ** Tuples *)

Section Tuples.

(** X8: a tuple construction passes iff its result type is a tuple type
    with as many fields as the instruction has elements; the outcome
    depends on the number of elements only, not on what they are or on
    their types. *)
Theorem visitTupleInst_field_count Ty (Elements : list Value) :
  (visitTupleInst Ty Elements = Verified <->
     exists fields,
       getSwiftType Ty = TupleType fields /\
       length Elements = length fields) /\
  (forall Elements' : list Value,
     length Elements' = length Elements ->
     visitTupleInst Ty Elements' = visitTupleInst Ty Elements) /\
  (forall fields,
     getSwiftType Ty = TupleType fields ->
     length Elements <> length fields ->
     visitTupleInst Ty Elements = AssertionFailed "Tuple field count mismatch!").
Proof.
  unfold visitTupleInst, is_TupleType. split; [|split].
  - destruct (getSwiftType Ty); cbn;
      try (split; [discriminate | intros (fs & H & _); discriminate]).
    rewrite assert_Verified, Nat.eqb_eq. split.
    + intros H. eexists. split; [reflexivity | exact H].
    + intros (fs & H & Hlen). injection H as <-. exact Hlen.
  - intros Elements' Hlen. rewrite Hlen. reflexivity.
  - intros fields HTy Hne. rewrite HTy. cbn.
    apply assert_failed. apply Nat.eqb_neq. exact Hne.
Qed.

End Tuples.

(** ** Rules on addresses *)

Section Addresses.

Lemma visitCopyAddrInst_Verified Src Dest :
  visitCopyAddrInst Src Dest = Verified <->
  isAddress (getType Src) = true /\
  isAddress (getType Dest) = true /\
  getType Dest = getType Src.
Proof. unfold visitCopyAddrInst. verified. tauto. Qed.

Lemma visitAllocVarInst_Verified Ty :
  visitAllocVarInst Ty = Verified <-> isAddress Ty = true.
Proof. unfold visitAllocVarInst. verified. tauto. Qed.

Lemma visitDeallocVarInst_Verified Operand :
  visitDeallocVarInst Operand = Verified <-> isAddress (getType Operand) = true.
Proof. unfold visitDeallocVarInst. verified. tauto. Qed.

Lemma visitZeroAddrInst_Verified Dest :
  visitZeroAddrInst Dest = Verified <-> isAddress (getType Dest) = true.
Proof. unfold visitZeroAddrInst. verified. tauto. Qed.

Lemma visitIndexAddrInst_Verified Ty Operand :
  visitIndexAddrInst Ty Operand = Verified <->
  isAddress Ty = true /\ Ty = getType Operand.
Proof. unfold visitIndexAddrInst. verified. tauto. Qed.

Lemma visitExtractInst_Verified Ty Operand :
  visitExtractInst Ty Operand = Verified <->
  isAddress (getType Operand) = false /\
  hasReferenceSemantics (getType Operand) = false /\
  isAddress Ty = false.
Proof. unfold visitExtractInst. verified. tauto. Qed.

Lemma visitElementAddrInst_Verified Ty Operand :
  visitElementAddrInst Ty Operand = Verified <->
  isAddress (getType Operand) = true /\
  hasReferenceSemantics (getType Operand) = false /\
  isAddress Ty = true.
Proof. unfold visitElementAddrInst. verified. tauto. Qed.

Lemma visitRefElementAddrInst_Verified Ty Operand :
  visitRefElementAddrInst Ty Operand = Verified <->
  isAddress (getType Operand) = false /\
  hasReferenceSemantics (getType Operand) = true /\
  isAddress Ty = true.
Proof. unfold visitRefElementAddrInst. verified. tauto. Qed.

(** X9: the store rule and the load rule are the same test read in two
    directions: storing [v] to [a] passes iff loading from [a] with the
    type of [v] as result type passes. *)
Theorem store_iff_load (v a : Value) :
  visitStoreInst v a = Verified <-> visitLoadInst (getType v) a = Verified.
Proof.
  rewrite visitStoreInst_Verified, visitLoadInst_Verified.
  intuition congruence.
Qed.

(** X10: copy_addr passes iff both operands are addresses of one type;
    the rule is symmetric in source and destination, and a copy that
    passes can be replaced by a load from the source and a store of the
    loaded value to the destination, which both pass. *)
Theorem copy_addr_as_load_store (Src Dest : Value) :
  (visitCopyAddrInst Src Dest = Verified <->
     isAddress (getType Src) = true /\ getType Dest = getType Src) /\
  (visitCopyAddrInst Src Dest = Verified <->
     visitCopyAddrInst Dest Src = Verified) /\
  (visitCopyAddrInst Src Dest = Verified ->
     forall tmp, getType tmp = getObjectType (getType Src) ->
       visitLoadInst (getType tmp) Src = Verified /\
       visitStoreInst tmp Dest = Verified).
Proof.
  rewrite !visitCopyAddrInst_Verified. split; [|split].
  - intuition congruence.
  - intuition congruence.
  - intros (Hs & Hd & Heq) tmp Htmp.
    rewrite visitLoadInst_Verified, visitStoreInst_Verified, Htmp, Heq.
    repeat split; auto.
Qed.

Lemma copy_addr_as_load_store_witness :
  let Src := mkValue 0 (addressOf IntTy) in
  let Dest := mkValue 1 (addressOf IntTy) in
  let tmp := mkValue 2 (valueOf IntTy) in
  visitCopyAddrInst Src Dest = Verified /\
  getType tmp = getObjectType (getType Src) /\
  visitLoadInst (getType tmp) Src = Verified /\
  visitStoreInst tmp Dest = Verified.
Proof.
  cbv zeta. split; [reflexivity|]. split; [reflexivity|].
  exact (proj2 (proj2 (copy_addr_as_load_store
           (mkValue 0 (addressOf IntTy)) (mkValue 1 (addressOf IntTy))))
         eq_refl (mkValue 2 (valueOf IntTy)) eq_refl).
Defined.

(** X11: for one operand at most one of extract, element_addr and
    ref_element_addr passes, whatever the result types: extract wants a
    value without reference semantics, element_addr an address without
    reference semantics, ref_element_addr a value with reference
    semantics. *)
Theorem element_rules_exclusive (Operand : Value) (Ty1 Ty2 Ty3 : SILType) :
  (visitExtractInst Ty1 Operand = Verified ->
     visitElementAddrInst Ty2 Operand <> Verified /\
     visitRefElementAddrInst Ty3 Operand <> Verified) /\
  (visitElementAddrInst Ty2 Operand = Verified ->
     visitExtractInst Ty1 Operand <> Verified /\
     visitRefElementAddrInst Ty3 Operand <> Verified) /\
  (visitRefElementAddrInst Ty3 Operand = Verified ->
     visitExtractInst Ty1 Operand <> Verified /\
     visitElementAddrInst Ty2 Operand <> Verified).
Proof.
  rewrite visitExtractInst_Verified, visitElementAddrInst_Verified,
    visitRefElementAddrInst_Verified.
  repeat split; intros H'; intuition congruence.
Qed.

Lemma element_rules_exclusive_witness :
  let Operand := mkValue 0 (valueOf (ClassType "Base")) in
  visitRefElementAddrInst (addressOf IntTy) Operand = Verified /\
  visitExtractInst (valueOf IntTy) Operand <> Verified /\
  visitElementAddrInst (addressOf IntTy) Operand <> Verified.
Proof.
  cbv zeta. split; [reflexivity|].
  exact (proj2 (proj2 (element_rules_exclusive
           (mkValue 0 (valueOf (ClassType "Base")))
           (valueOf IntTy) (addressOf IntTy) (addressOf IntTy))) eq_refl).
Defined.

(** X12: the result of an alloc_var that passes is an address: it can be
    zeroed and deallocated with dealloc_var, a value of its pointee type
    can be stored to it and loaded from it, and it is rejected as the
    operand of retain, release, dealloc_ref, extract and
    ref_element_addr. *)
Theorem alloc_var_result (Ty : SILType) (slot v : Value) :
  visitAllocVarInst Ty = Verified ->
  getType slot = Ty ->
  getType v = getObjectType Ty ->
  (visitZeroAddrInst slot = Verified /\
   visitDeallocVarInst slot = Verified /\
   visitStoreInst v slot = Verified /\
   visitLoadInst (getType v) slot = Verified) /\
  (visitRetainInst slot <> Verified /\
   visitReleaseInst slot <> Verified /\
   visitDeallocRefInst slot <> Verified /\
   (forall Ty', visitExtractInst Ty' slot <> Verified) /\
   (forall Ty', visitRefElementAddrInst Ty' slot <> Verified)).
Proof.
  rewrite visitAllocVarInst_Verified. intros Haddr Hslot Hv.
  rewrite visitZeroAddrInst_Verified, visitDeallocVarInst_Verified,
    visitStoreInst_Verified, visitLoadInst_Verified,
    visitRetainInst_Verified, visitReleaseInst_Verified,
    visitDeallocRefInst_Verified, Hv, Hslot, Haddr.
  split; [repeat split; reflexivity|].
  repeat split; try (intros [? ?]; discriminate).
  - intros Ty'. rewrite visitExtractInst_Verified, Hslot, Haddr.
    intros [? ?]; discriminate.
  - intros Ty'. rewrite visitRefElementAddrInst_Verified, Hslot, Haddr.
    intros [? ?]; discriminate.
Qed.

Lemma alloc_var_result_witness :
  let Ty := addressOf IntTy in
  let slot := mkValue 0 (addressOf IntTy) in
  let v := mkValue 1 (valueOf IntTy) in
  (visitAllocVarInst Ty = Verified /\ getType slot = Ty /\
   getType v = getObjectType Ty) /\
  (visitZeroAddrInst slot = Verified /\
   visitDeallocVarInst slot = Verified /\
   visitStoreInst v slot = Verified /\
   visitLoadInst (getType v) slot = Verified) /\
  (visitRetainInst slot <> Verified /\
   visitReleaseInst slot <> Verified /\
   visitDeallocRefInst slot <> Verified /\
   (forall Ty', visitExtractInst Ty' slot <> Verified) /\
   (forall Ty', visitRefElementAddrInst Ty' slot <> Verified)).
Proof.
  cbv zeta. split; [repeat split; reflexivity|].
  apply (alloc_var_result (addressOf IntTy) (mkValue 0 (addressOf IntTy))
           (mkValue 1 (valueOf IntTy))); reflexivity.
Defined.

(** X13: the result of an alloc_ref that passes is a reference value: it
    can be retained, released and deallocated with dealloc_ref, and the
    address of one of its fields can be taken with ref_element_addr; it
    is rejected as the operand of dealloc_var, zero_addr, extract and
    element_addr and as the address of a load or a store. *)
Theorem alloc_ref_result (Ty : SILType) (ref : Value) :
  visitAllocRefInst Ty = Verified ->
  getType ref = Ty ->
  (visitRetainInst ref = Verified /\
   visitReleaseInst ref = Verified /\
   visitDeallocRefInst ref = Verified /\
   (forall Ty', isAddress Ty' = true ->
      visitRefElementAddrInst Ty' ref = Verified)) /\
  (visitDeallocVarInst ref <> Verified /\
   visitZeroAddrInst ref <> Verified /\
   (forall Ty', visitExtractInst Ty' ref <> Verified) /\
   (forall Ty', visitElementAddrInst Ty' ref <> Verified) /\
   (forall Ty', visitLoadInst Ty' ref <> Verified) /\
   (forall v, visitStoreInst v ref <> Verified)).
Proof.
  rewrite visitAllocRefInst_Verified. intros [Href Haddr] Hty.
  rewrite visitRetainInst_Verified, visitReleaseInst_Verified,
    visitDeallocRefInst_Verified, visitDeallocVarInst_Verified,
    visitZeroAddrInst_Verified, Hty, Href, Haddr.
  split.
  - repeat split. intros Ty' HTy'.
    rewrite visitRefElementAddrInst_Verified, Hty, Href, Haddr. auto.
  - repeat split; try discriminate.
    + intros Ty'. rewrite visitExtractInst_Verified, Hty, Href.
      intros (_ & ? & _); discriminate.
    + intros Ty'. rewrite visitElementAddrInst_Verified, Hty, Haddr.
      intros (? & _); discriminate.
    + intros Ty'. rewrite visitLoadInst_Verified, Hty, Haddr.
      intros (? & _); discriminate.
    + intros v. rewrite visitStoreInst_Verified, Hty, Haddr.
      intros (? & _); discriminate.
Qed.

Lemma alloc_ref_result_witness :
  let Ty := valueOf (ClassType "Base") in
  let ref := mkValue 0 (valueOf (ClassType "Base")) in
  (visitAllocRefInst Ty = Verified /\ getType ref = Ty) /\
  (visitRetainInst ref = Verified /\
   visitReleaseInst ref = Verified /\
   visitDeallocRefInst ref = Verified /\
   (forall Ty', isAddress Ty' = true ->
      visitRefElementAddrInst Ty' ref = Verified)) /\
  (visitDeallocVarInst ref <> Verified /\
   visitZeroAddrInst ref <> Verified /\
   (forall Ty', visitExtractInst Ty' ref <> Verified) /\
   (forall Ty', visitElementAddrInst Ty' ref <> Verified) /\
   (forall Ty', visitLoadInst Ty' ref <> Verified) /\
   (forall v, visitStoreInst v ref <> Verified)).
Proof.
  cbv zeta. split; [split; reflexivity|].
  apply (alloc_ref_result (valueOf (ClassType "Base"))
           (mkValue 0 (valueOf (ClassType "Base")))); reflexivity.
Defined.

(** X14: index_addr passes iff its result type is the type of its
    operand and an address; its result can then be indexed again with
    the same result type, and a load from the result passes exactly when
    the same load from the operand does. *)
Theorem index_addr_chain (Ty : SILType) (Operand : Value) :
  (visitIndexAddrInst Ty Operand = Verified <->
     isAddress (getType Operand) = true /\ Ty = getType Operand) /\
  (visitIndexAddrInst Ty Operand = Verified ->
     forall result, getType result = Ty ->
       visitIndexAddrInst Ty result = Verified /\
       (forall Ty', visitLoadInst Ty' result = Verified <->
                    visitLoadInst Ty' Operand = Verified)).
Proof.
  rewrite visitIndexAddrInst_Verified. split.
  - intuition congruence.
  - intros [Haddr ->] result Hres. split.
    + rewrite visitIndexAddrInst_Verified, Hres. auto.
    + intros Ty'. rewrite !visitLoadInst_Verified, Hres. reflexivity.
Qed.

Lemma index_addr_chain_witness :
  let Ty := addressOf IntTy in
  let Operand := mkValue 0 (addressOf IntTy) in
  let result := mkValue 1 (addressOf IntTy) in
  visitIndexAddrInst Ty Operand = Verified /\
  visitIndexAddrInst Ty result = Verified /\
  (forall Ty', visitLoadInst Ty' result = Verified <->
               visitLoadInst Ty' Operand = Verified).
Proof.
  cbv zeta. split; [reflexivity|].
  exact (proj2 (index_addr_chain (addressOf IntTy) (mkValue 0 (addressOf IntTy)))
           eq_refl (mkValue 1 (addressOf IntTy)) eq_refl).
Defined.

End Addresses.

(** ** Existentials *)

Section Existentials.

Lemma visitProjectExistentialInst_Verified Operand :
  visitProjectExistentialInst Operand = Verified <->
  isAddress (getType Operand) = true /\
  isExistentialType (getType Operand) = true.
Proof. unfold visitProjectExistentialInst. verified. tauto. Qed.

Lemma visitInitExistentialInst_Verified Existential :
  visitInitExistentialInst Existential = Verified <->
  isAddress (getType Existential) = true /\
  isExistentialType (getType Existential) = true.
Proof. unfold visitInitExistentialInst. verified. tauto. Qed.

Lemma visitDeinitExistentialInst_Verified Existential :
  visitDeinitExistentialInst Existential = Verified <->
  isAddress (getType Existential) = true /\
  isExistentialType (getType Existential) = true.
Proof. unfold visitDeinitExistentialInst. verified. tauto. Qed.

Lemma visitProtocolMethodInst_Verified Ty Operand :
  visitProtocolMethodInst Ty Operand = Verified <->
  (exists result,
     getSwiftType Ty = FunctionType BuiltinRawPointerType result /\
     CanType_is_FunctionType result = true) /\
  isAddress (getType Operand) = true /\
  isExistentialType (getType Operand) = true.
Proof.
  unfold visitProtocolMethodInst.
  destruct (getSwiftType Ty) as [| | | |input result| | | | | |];
    try (split; [discriminate | intros [(r & H & _) _]; discriminate]).
  verified. split.
  - intros (-> & Hres & Haddr & Hex). eauto.
  - intros [(r & H & Hres) [Haddr Hex]]. injection H as -> ->. auto.
Qed.

(** X15: init_existential, deinit_existential and project_existential
    accept the same operands, the addresses of existential type.  An
    operand on which protocol_method passes is one of them, and a method
    type that passes for one existential address passes for every other
    one: its input is the raw pointer type, not the type of the
    operand. *)
Theorem existential_rules_agree :
  (forall Operand,
     visitInitExistentialInst Operand = Verified <->
     visitDeinitExistentialInst Operand = Verified) /\
  (forall Operand,
     visitInitExistentialInst Operand = Verified <->
     visitProjectExistentialInst Operand = Verified) /\
  (forall Ty Operand,
     visitProtocolMethodInst Ty Operand = Verified ->
     visitProjectExistentialInst Operand = Verified) /\
  (forall Ty Operand Operand',
     visitProtocolMethodInst Ty Operand = Verified ->
     visitProjectExistentialInst Operand' = Verified ->
     visitProtocolMethodInst Ty Operand' = Verified).
Proof.
  split; [|split; [|split]].
  - intros Operand. rewrite visitInitExistentialInst_Verified,
      visitDeinitExistentialInst_Verified. reflexivity.
  - intros Operand. rewrite visitInitExistentialInst_Verified,
      visitProjectExistentialInst_Verified. reflexivity.
  - intros Ty Operand. rewrite visitProtocolMethodInst_Verified,
      visitProjectExistentialInst_Verified. tauto.
  - intros Ty Operand Operand'. rewrite !visitProtocolMethodInst_Verified,
      visitProjectExistentialInst_Verified. tauto.
Qed.

Lemma existential_rules_agree_witness :
  let Ty := valueOf (FunctionType BuiltinRawPointerType
                                  (FunctionType UnitTy UnitTy)) in
  let Operand := mkValue 0 (addressOf (ProtocolType "Printable")) in
  let Operand' := mkValue 1 (addressOf (ProtocolType "Hashable")) in
  visitProtocolMethodInst Ty Operand = Verified /\
  visitProjectExistentialInst Operand' = Verified /\
  visitProtocolMethodInst Ty Operand' = Verified.
Proof.
  cbv zeta. split; [reflexivity|]. split; [reflexivity|].
  exact (proj2 (proj2 (proj2 existential_rules_agree))
           (valueOf (FunctionType BuiltinRawPointerType
                                  (FunctionType UnitTy UnitTy)))
           (mkValue 0 (addressOf (ProtocolType "Printable")))
           (mkValue 1 (addressOf (ProtocolType "Hashable")))
           eq_refl eq_refl).
Defined.

End Existentials.

(** ** What the verifier reads of the function *)

Section Frame.

Lemma dispatch_frame F F' Inst :
  (forall Ty Callee Arguments, Inst = ApplyInst Ty Callee Arguments ->
     getFunctionTypeInfo (getModule F) (getType Callee)
       = getFunctionTypeInfo (getModule F') (getType Callee)) ->
  dispatch F Inst = dispatch F' Inst.
Proof.
  intros Happly. destruct Inst; try reflexivity.
  cbn [dispatch]. unfold visitApplyInst.
  rewrite (Happly _ _ _ eq_refl). reflexivity.
Qed.

Lemma visitInstructions_frame F F' BB (Insts : list Instruction) : forall i,
  (forall Inst, Inst ∈ Insts -> dispatch F Inst = dispatch F' Inst) ->
  visitInstructions F BB i Insts = visitInstructions F' BB i Insts.
Proof.
  induction Insts as [|Inst0 rest IH]; intros i Hsame; cbn [visitInstructions].
  - reflexivity.
  - unfold visit. rewrite (Hsame Inst0) by apply list_elem_of_here.
    rewrite (IH (S i)); [reflexivity|].
    intros Inst Hin. apply Hsame. apply list_elem_of_further. exact Hin.
Qed.

Lemma calleeTypes_apply (BB : BasicBlock) Ty Callee Arguments :
  ApplyInst Ty Callee Arguments ∈ BB -> getType Callee ∈ calleeTypes BB.
Proof.
  intros Hin. unfold calleeTypes. apply list_elem_of_omap.
  exists (ApplyInst Ty Callee Arguments). auto.
Qed.

(** X16: the verifier reads nothing of a function but its blocks and, in
    its module, the signatures of the callee types of its apply
    instructions: two functions with the same blocks whose modules agree
    on these types end in the same outcome, whatever their own types and
    whatever else their modules hold. *)
Theorem verify_frame F F' :
  getBlocks F = getBlocks F' ->
  (forall BB t, BB ∈ getBlocks F -> t ∈ calleeTypes BB ->
     getFunctionTypeInfo (getModule F) t = getFunctionTypeInfo (getModule F') t) ->
  verify F = verify F'.
Proof.
  intros Hblocks Hsigs. unfold verify, visitFunction. rewrite <- Hblocks.
  assert (Hall : forall BB, BB ∈ getBlocks F ->
            visitBasicBlock F BB = visitBasicBlock F' BB).
  { intros BB HB. unfold visitBasicBlock. apply visitInstructions_frame.
    intros Inst Hin. apply dispatch_frame.
    intros Ty Callee Arguments ->. apply (Hsigs BB); [exact HB|].
    eapply calleeTypes_apply, Hin. }
  clear Hblocks Hsigs. induction (getBlocks F) as [|BB0 rest IH];
    cbn [visitBlocks]; [reflexivity|].
  rewrite (Hall BB0) by apply list_elem_of_here.
  rewrite IH; [reflexivity|].
  intros BB HB. apply Hall. apply list_elem_of_further. exact HB.
Qed.

Lemma verify_frame_witness :
  let calleeTy := valueOf (FunctionType (TupleType [IntTy; BoolTy]) IntTy) in
  let BB := [ ApplyInst (valueOf IntTy) (mkValue 0 calleeTy)
                [mkValue 1 (valueOf IntTy); mkValue 2 (valueOf BoolTy)];
              ReturnInst (Some (mkValue 3 (valueOf IntTy))) ] in
  let F := sampleFunction sampleModule [BB] in
  let F' := {| getModule := onlyModule calleeTy
                 (mkSILFunctionTypeInfo [valueOf IntTy; valueOf BoolTy]
                                        (valueOf IntTy));
               getLoweredType := addressOf BoolTy;
               getBlocks := [BB] |} in
  calleeTypes BB = [calleeTy] /\
  getFunctionTypeInfo (getModule F) (valueOf (FunctionType IntTy IntTy))
    <> getFunctionTypeInfo (getModule F') (valueOf (FunctionType IntTy IntTy)) /\
  verify F = verify F' /\
  verify F' = Verified.
Proof.
  cbv zeta. split; [reflexivity|]. split; [discriminate|].
  split; [|reflexivity].
  apply (verify_frame
           (sampleFunction sampleModule
              [[ ApplyInst (valueOf IntTy)
                   (mkValue 0 (valueOf (FunctionType (TupleType [IntTy; BoolTy]) IntTy)))
                   [mkValue 1 (valueOf IntTy); mkValue 2 (valueOf BoolTy)];
                 ReturnInst (Some (mkValue 3 (valueOf IntTy))) ]])
           {| getModule := onlyModule
                (valueOf (FunctionType (TupleType [IntTy; BoolTy]) IntTy))
                (mkSILFunctionTypeInfo [valueOf IntTy; valueOf BoolTy]
                                       (valueOf IntTy));
              getLoweredType := addressOf BoolTy;
              getBlocks :=
                [[ ApplyInst (valueOf IntTy)
                     (mkValue 0 (valueOf (FunctionType (TupleType [IntTy; BoolTy]) IntTy)))
                     [mkValue 1 (valueOf IntTy); mkValue 2 (valueOf BoolTy)];
                   ReturnInst (Some (mkValue 3 (valueOf IntTy))) ]] |}).
  - reflexivity.
  - intros BB t HB Ht. apply list_elem_of_singleton in HB as ->.
    cbn in Ht. apply list_elem_of_singleton in Ht as ->. reflexivity.
Defined.

End Frame.

(** ** Downcasts *)

Section Casts.

Lemma visitDowncastInst_Verified Ty Operand :
  visitDowncastInst Ty Operand = Verified <->
  hasReferenceSemantics (getType Operand) = true /\
  hasReferenceSemantics Ty = true.
Proof. unfold visitDowncastInst. verified. tauto. Qed.

(** X17: downcasts that pass compose and can be undone: if a downcast of
    [a] to the type of [b] and one of [b] to the type of [c] pass, so do
    the downcast of [a] to the type of [c] and the downcast of [b] back
    to the type of [a]. *)
Theorem downcast_compose (a b c : Value) :
  visitDowncastInst (getType b) a = Verified ->
  visitDowncastInst (getType c) b = Verified ->
  visitDowncastInst (getType c) a = Verified /\
  visitDowncastInst (getType a) b = Verified.
Proof. rewrite !visitDowncastInst_Verified. tauto. Qed.

Lemma downcast_compose_witness :
  let a := mkValue 0 (valueOf (ClassType "Base")) in
  let b := mkValue 1 (valueOf (ClassType "Derived")) in
  let c := mkValue 2 (valueOf (ClassType "MoreDerived")) in
  visitDowncastInst (getType c) a = Verified /\
  visitDowncastInst (getType a) b = Verified.
Proof.
  cbv zeta.
  apply (downcast_compose (mkValue 0 (valueOf (ClassType "Base")))
           (mkValue 1 (valueOf (ClassType "Derived")))
           (mkValue 2 (valueOf (ClassType "MoreDerived")))); reflexivity.
Defined.

End Casts.

(** ** Unresolved signatures *)

Section UnresolvedInTheWalk.

(** C5 (as amended): when the signature of the callee is not resolved,
    the rule of an apply whose callee is a non-address value of concrete
    function type stops in the dereference of the missing signature, a
    fatal stop that is not an assertion failure; for a callee that is an
    address or not of concrete function type the assertion on the callee
    fails first, as an ordinary violation.  The visit of such an apply
    with a good callee stops fatally unless the apply is the last
    instruction of its block, where the ordinary assertion on the
    position fails before the rule runs; and the verification of the
    function stops fatally when the walk reaches such an apply, that is
    when the blocks and the instructions before it pass. *)
Theorem visitApplyInst_unresolved F Ty Callee (Arguments : list Value) :
  getFunctionTypeInfo (getModule F) (getType Callee) = None ->
  (isAddress (getType Callee) = false ->
   is_FunctionType (getType Callee) = true ->
     visitApplyInst F Ty Callee Arguments = NullDereference /\
     isFatal (visitApplyInst F Ty Callee Arguments) = true /\
     isInvariantViolation (visitApplyInst F Ty Callee Arguments) = false) /\
  (isAddress (getType Callee) = true ->
     visitApplyInst F Ty Callee Arguments
       = AssertionFailed "callee of apply cannot be an address") /\
  (isAddress (getType Callee) = false ->
   is_FunctionType (getType Callee) = false ->
     visitApplyInst F Ty Callee Arguments
       = AssertionFailed "callee of apply must have concrete function type") /\
  (forall (BB : BasicBlock) i,
     BB !! i = Some (ApplyInst Ty Callee Arguments) ->
     isAddress (getType Callee) = false ->
     is_FunctionType (getType Callee) = true ->
     (isLastOf BB i = false ->
        visit F BB i (ApplyInst Ty Callee Arguments) = NullDereference) /\
     (isLastOf BB i = true ->
        visit F BB i (ApplyInst Ty Callee Arguments)
          = AssertionFailed "Non-terminators cannot be the last in a block")) /\
  (forall (before after : list BasicBlock) (BB : BasicBlock) n,
     getBlocks F = before ++ BB :: after ->
     (forall BB', BB' ∈ before -> visitBasicBlock F BB' = Verified) ->
     BB !! n = Some (ApplyInst Ty Callee Arguments) ->
     (forall k Inst, k < n -> BB !! k = Some Inst ->
        visit F BB k Inst = Verified) ->
     isLastOf BB n = false ->
     isAddress (getType Callee) = false ->
     is_FunctionType (getType Callee) = true ->
     verify F = NullDereference /\ isFatal (verify F) = true).
Proof.
  intros Hti.
  assert (Hrule : isAddress (getType Callee) = false ->
                  is_FunctionType (getType Callee) = true ->
                  visitApplyInst F Ty Callee Arguments = NullDereference).
  { intros Haddr Hfn. unfold visitApplyInst. rewrite Hti, Haddr, Hfn.
    reflexivity. }
  assert (Hvisit : forall (BB : BasicBlock) i,
            BB !! i = Some (ApplyInst Ty Callee Arguments) ->
            isAddress (getType Callee) = false ->
            is_FunctionType (getType Callee) = true ->
            isLastOf BB i = false ->
            visit F BB i (ApplyInst Ty Callee Arguments) = NullDereference).
  { intros BB i Hi Haddr Hfn Hlast.
    rewrite (visit_non_terminator_inside F BB i _ Hi eq_refl Hlast).
    apply Hrule; assumption. }
  split; [|split; [|split; [|split]]].
  - intros Haddr Hfn. rewrite (Hrule Haddr Hfn). repeat split; reflexivity.
  - intros Haddr. unfold visitApplyInst. rewrite Haddr. reflexivity.
  - intros Haddr Hfn. unfold visitApplyInst. rewrite Haddr, Hfn. reflexivity.
  - intros BB i Hi Haddr Hfn. split.
    + apply Hvisit; assumption.
    + intros Hlast. apply visit_non_terminator_last; [exact Hi|reflexivity|exact Hlast].
  - intros before after BB n Hblocks Hbefore Hn Hfront Hlast Haddr Hfn.
    assert (HBB : visitBasicBlock F BB = NullDereference).
    { unfold visitBasicBlock.
      rewrite (visitInstructions_first_failure F BB BB 0 n _ Hn); cbn.
      - apply Hvisit; assumption.
      - exact Hfront.
      - rewrite Hvisit by assumption. discriminate. }
    assert (Hverify : verify F = NullDereference).
    { unfold verify, visitFunction. rewrite Hblocks.
      rewrite visitBlocks_first_failure; [exact HBB|exact Hbefore|].
      rewrite HBB. discriminate. }
    rewrite Hverify. split; reflexivity.
Qed.

Lemma visitApplyInst_unresolved_witness :
  let callee := mkValue 0 (valueOf (FunctionType IntTy IntTy)) in
  let args := [mkValue 1 (valueOf IntTy)] in
  let call := ApplyInst (valueOf IntTy) callee args in
  let BB := [ AllocVarInst (addressOf IntTy); call;
              ReturnInst (Some (mkValue 2 (valueOf IntTy))) ] in
  let F := sampleFunction emptyModule [entryBlock; BB; []] in
  (getFunctionTypeInfo (getModule F) (getType callee) = None /\
   isAddress (getType callee) = false /\
   is_FunctionType (getType callee) = true /\
   BB !! 1 = Some call /\ isLastOf BB 1 = false) /\
  visitApplyInst F (valueOf IntTy) callee args = NullDereference /\
  visit F BB 1 call = NullDereference /\
  verify F = NullDereference /\
  visit F [AllocVarInst (addressOf IntTy); call] 1 call
    = AssertionFailed "Non-terminators cannot be the last in a block".
Proof.
  cbv zeta. split; [repeat split; reflexivity|].
  destruct (visitApplyInst_unresolved
              (sampleFunction emptyModule
                 [entryBlock;
                  [ AllocVarInst (addressOf IntTy);
                    ApplyInst (valueOf IntTy)
                      (mkValue 0 (valueOf (FunctionType IntTy IntTy)))
                      [mkValue 1 (valueOf IntTy)];
                    ReturnInst (Some (mkValue 2 (valueOf IntTy))) ];
                  []])
              (valueOf IntTy)
              (mkValue 0 (valueOf (FunctionType IntTy IntTy)))
              [mkValue 1 (valueOf IntTy)] eq_refl)
    as (Hrule & _ & _ & Hvisit & Hverify).
  split; [exact (proj1 (Hrule eq_refl eq_refl))|].
  split.
  { exact (proj1 (Hvisit
             [ AllocVarInst (addressOf IntTy);
               ApplyInst (valueOf IntTy)
                 (mkValue 0 (valueOf (FunctionType IntTy IntTy)))
                 [mkValue 1 (valueOf IntTy)];
               ReturnInst (Some (mkValue 2 (valueOf IntTy))) ]
             1 eq_refl eq_refl eq_refl) eq_refl). }
  split.
  - refine (proj1 (Hverify [entryBlock] [[]]
              [ AllocVarInst (addressOf IntTy);
                ApplyInst (valueOf IntTy)
                  (mkValue 0 (valueOf (FunctionType IntTy IntTy)))
                  [mkValue 1 (valueOf IntTy)];
                ReturnInst (Some (mkValue 2 (valueOf IntTy))) ]
              1 eq_refl _ eq_refl _ eq_refl eq_refl eq_refl)).
    + intros BB' Hin. apply list_elem_of_singleton in Hin as ->. reflexivity.
    + intros k Inst Hk Hlook. destruct k as [|k]; [|lia].
      injection Hlook as <-. reflexivity.
  - exact (proj2 (Hvisit
             [ AllocVarInst (addressOf IntTy);
               ApplyInst (valueOf IntTy)
                 (mkValue 0 (valueOf (FunctionType IntTy IntTy)))
                 [mkValue 1 (valueOf IntTy)] ]
             1 eq_refl eq_refl eq_refl) eq_refl).
Defined.

End UnresolvedInTheWalk.
